(** * Juniper_get_info: the extraction and free-value utilities of get_infos.py

    A shallow embedding of [get_infos.py].  The device session (PyEZ
    [Device], its facts and its RPC replies) is the external collaborator:
    it is modelled as a record holding the facts and the reply documents,
    and every function of the module takes that record where the source
    takes [hostname], [userid] and [pwd] and builds the session from them.

    Python values are modelled as follows:
    - [str] as [string], [int] as [Z], [list] as [list];
    - an lxml element as [Element] (tag, optional text, children);
    - exceptions as the [Raise] outcome of a small error monad;
    - the unbounded iterator [count(start)] as a function [nat -> Z], and
      [next(ifilterfalse(..))] as a scan that consumes fuel, one unit per
      candidate examined. *)

From Stdlib Require Import ZArith List Bool Lia Ascii String.
From Stdlib Require Import Sorting.Sorted Sorting.Permutation Lists.Finite.
Import ListNotations.

Open Scope string_scope.
Open Scope list_scope.
Open Scope Z_scope.

(** ** Exceptions and outcomes *)

Inductive exn : Type :=
| AttributeError
| IndexError
| ValueError
| TypeError (msg : string)
| UnboundLocalError.

(** What running a piece of the program yields: a value, an exception,
    or no answer within the fuel given to an unbounded loop. *)
Inductive outcome (A : Type) : Type :=
| Return (a : A)
| Raise (e : exn)
| OutOfFuel.

Arguments Return {A} a.
Arguments Raise {A} e.
Arguments OutOfFuel {A}.

Definition bind {A B : Type} (m : outcome A) (k : A -> outcome B) : outcome B :=
  match m with
  | Return a => k a
  | Raise e => Raise e
  | OutOfFuel => OutOfFuel
  end.

Notation "x <- m ;; k" := (bind m (fun x => k))
  (at level 61, m at next level, right associativity).

(** [try: body / except: handler], with a bare [except] clause: every
    exception is caught. *)
Definition try_except {A : Type} (body : outcome A) (handler : outcome A) : outcome A :=
  match body with
  | Raise _ => handler
  | other => other
  end.

(** [for item in items: body], threading the variables the body updates. *)
Fixpoint for_each {A S : Type} (items : list A) (body : A -> S -> outcome S) (s : S)
  : outcome S :=
  match items with
  | [] => Return s
  | item :: rest => s' <- body item s ;; for_each rest body s'
  end.

(** ** Python strings *)

Module Str.

(** Text is modelled as a string of one-byte characters, classified the
    ASCII way.  That is how Python reads a byte string, which is what lxml
    hands out for text without other characters.  For text with further
    characters lxml hands out a unicode string, on which [strip()] and
    [int()] consult the Unicode tables: they take more characters for
    blanks (U+001C to U+001F, U+0085, U+00A0, ...) and for decimal digits
    than the functions below.  So [strip] and [parse_int] are what the
    program computes on [plain] text, and on any text an integer found by
    [parse_int] is the integer [int()] returns, since such text consists of
    ASCII blanks, a sign and ASCII digits only; a failure of [parse_int] on
    text that is not [plain] says nothing about [int()]. *)

(** The ASCII characters [str.strip()] and [int()] treat as white space. *)
Definition isspace (c : ascii) : bool :=
  let n := nat_of_ascii c in
  ((n =? 32) || ((9 <=? n) && (n <=? 13)))%nat.

(** The ASCII decimal digits. *)
Definition isdigit (c : ascii) : bool :=
  let n := nat_of_ascii c in
  ((48 <=? n) && (n <=? 57))%nat.

(** An ASCII character that byte strings and unicode strings classify
    alike: any but the separators U+001C to U+001F, which are blanks for a
    unicode string only. *)
Definition plain_char (c : ascii) : bool :=
  let n := nat_of_ascii c in
  ((n <? 128) && negb ((28 <=? n) && (n <=? 31)))%nat.

(** Text made of such characters only. *)
Fixpoint plain (s : string) : bool :=
  match s with
  | EmptyString => true
  | String c s' => plain_char c && plain s'
  end.

(** [s.split(sep)] for a one-character separator, which is what every
    call site of the module passes. *)
Fixpoint split (sep : ascii) (s : string) : list string :=
  match s with
  | EmptyString => [EmptyString]
  | String c s' =>
      if Ascii.eqb c sep then EmptyString :: split sep s'
      else match split sep s' with
           | [] => [String c EmptyString]
           | p :: ps => String c p :: ps
           end
  end.

Fixpoint lstrip (s : string) : string :=
  match s with
  | EmptyString => EmptyString
  | String c s' => if isspace c then lstrip s' else s
  end.

Fixpoint rstrip (s : string) : string :=
  match s with
  | EmptyString => EmptyString
  | String c s' =>
      match rstrip s' with
      | EmptyString => if isspace c then EmptyString else String c EmptyString
      | r => String c r
      end
  end.

(** [c in s] *)
Fixpoint occurs (c : ascii) (s : string) : bool :=
  match s with
  | EmptyString => false
  | String c' s' => Ascii.eqb c' c || occurs c s'
  end.

(** [s.strip()] *)
Definition strip (s : string) : string := rstrip (lstrip s).

Definition digit_value (c : ascii) : Z := Z.of_nat (nat_of_ascii c) - 48.

(** Value of a run of decimal digits, most significant first; [None] when a
    character is not a digit. *)
Fixpoint digits_from (acc : Z) (s : string) : option Z :=
  match s with
  | EmptyString => Some acc
  | String c s' =>
      if isdigit c then digits_from (10 * acc + digit_value c) s' else None
  end.

Definition digits (s : string) : option Z :=
  match s with
  | EmptyString => None
  | _ => digits_from 0 s
  end.

(** [int(s)] on text: surrounding white space is ignored, then an optional
    sign and one or more decimal digits.  [None] stands for the literal
    being invalid. *)
Definition parse_int (s : string) : option Z :=
  match strip s with
  | String "+" d => digits d
  | String "-" d => option_map Z.opp (digits d)
  | d => digits d
  end.

End Str.

(** [int(s)] for a [str]: an invalid literal raises [ValueError]. *)
Definition int_of_str (s : string) : outcome Z :=
  match Str.parse_int s with
  | Some z => Return z
  | None => Raise ValueError
  end.

(** [int(x)] where [x] is the [.text] of an element, which is [None] for an
    element without text: [int(None)] raises [TypeError]. *)
Definition int (x : option string) : outcome Z :=
  match x with
  | None => Raise (TypeError "int() argument must be a string or a number, not 'NoneType'")
  | Some s => int_of_str s
  end.

(** [x.split(sep)] where [x] may be [None] (an element without text). *)
Definition split (x : option string) (sep : ascii) : outcome (list string) :=
  match x with
  | None => Raise AttributeError
  | Some s => Return (Str.split sep s)
  end.

(** [l[i]] with Python's indexing: negative indices count from the end. *)
Definition getitem {A : Type} (l : list A) (i : Z) : outcome A :=
  let n := Z.of_nat (List.length l) in
  let j := if i <? 0 then n + i else i in
  if (j <? 0) || (n <=? j) then Raise IndexError
  else match nth_error l (Z.to_nat j) with
       | Some a => Return a
       | None => Raise IndexError
       end.

(** [sorted(l)] on a list of integers. *)
Fixpoint insert_sorted (x : Z) (l : list Z) : list Z :=
  match l with
  | [] => [x]
  | y :: l' => if x <=? y then x :: l else y :: insert_sorted x l'
  end.

Fixpoint sorted (l : list Z) : list Z :=
  match l with
  | [] => []
  | x :: l' => insert_sorted x (sorted l')
  end.

(** [l.__contains__] *)
Definition contains (l : list Z) (x : Z) : bool := existsb (Z.eqb x) l.

(** ** Iterators: [count], [ifilterfalse], [next] *)

(** An iterator that never ends, given by its k-th item. *)
Definition stream (A : Type) : Type := nat -> A.

(** [count(start)] yields [start], [start + 1], ... *)
Definition count (start : Z) : stream Z := fun k => start + Z.of_nat k.

(** [ifilterfalse(pred, source)]: the items of [source] on which [pred] is
    false. *)
Record filtered (A : Type) : Type := ifilterfalse {
  pred : A -> bool;
  source : stream A
}.

Arguments ifilterfalse {A} pred source.
Arguments pred {A} f.
Arguments source {A} f.

(** [next(it)] pulls items of the source from position [k] on until the
    predicate fails; each item examined costs one unit of fuel. *)
Fixpoint next_from {A : Type} (fuel : nat) (it : filtered A) (k : nat) : outcome A :=
  match fuel with
  | O => OutOfFuel
  | S fuel' =>
      let x := source it k in
      if pred it x then next_from fuel' it (S k) else Return x
  end.

Definition next {A : Type} (fuel : nat) (it : filtered A) : outcome A :=
  next_from fuel it 0.

(** ** XML documents (lxml elements) *)

(** An element with its tag, its text ([None] when it has none) and its
    child elements.  Attributes, tail text and comments, which the module
    never reads, are left out. *)
#[warnings="-register-all"]
Inductive Element : Type :=
| mkElement (tag : string) (text : option string) (children : list Element).

Definition tag (e : Element) : string :=
  match e with mkElement t _ _ => t end.

Definition text (e : Element) : option string :=
  match e with mkElement _ x _ => x end.

Definition children (e : Element) : list Element :=
  match e with mkElement _ _ cs => cs end.

Definition has_tag (t : string) (e : Element) : bool := String.eqb (tag e) t.

(** The element and all its descendants, in document order. *)
Fixpoint iter_all (e : Element) : list Element :=
  match e with
  | mkElement _ _ cs => e :: flat_map iter_all cs
  end.

(** [e.iter(t)] *)
Definition iter (e : Element) (t : string) : list Element :=
  filter (has_tag t) (iter_all e).

Fixpoint findall_steps (context : list Element) (steps : list string) : list Element :=
  match steps with
  | [] => context
  | t :: steps' =>
      findall_steps (flat_map (fun e => filter (has_tag t) (children e)) context) steps'
  end.

(** [e.find(path)] for a path of child tags separated by [/]: the first
    match in document order, or [None]. *)
Definition find (e : Element) (path : string) : option Element :=
  hd_error (findall_steps [e] (Str.split "/" path)).

(** [x.text] where [x] is the result of [find]: on [None] the attribute
    access raises [AttributeError]. *)
Definition text_of (x : option Element) : outcome (option string) :=
  match x with
  | None => Raise AttributeError
  | Some e => Return (text e)
  end.

(** XPath string-value of an element: its text and that of its descendants. *)
Fixpoint string_value (e : Element) : string :=
  match e with
  | mkElement _ x cs =>
      ((match x with Some s => s | None => EmptyString end)
       ++ String.concat EmptyString (map string_value cs))%string
  end.

(** The predicate [address-family[address-family-name='inet']]. *)
Definition is_inet_family (e : Element) : bool :=
  has_tag "address-family" e
  && existsb (fun n => has_tag "address-family-name" n
                       && String.eqb (string_value n) "inet") (children e).

(** The node set of
    [.//address-family[address-family-name='inet']/interface-address/ifa-local]
    below [e], in document order.  [in_family] says that [e] is a selected
    address family, [in_address] that it is an [interface-address] child of
    one. *)
Fixpoint xpath_ifa_local_from (in_family in_address : bool) (e : Element) : list Element :=
  match e with
  | mkElement _ _ cs =>
      flat_map (fun c =>
                  (if in_address && has_tag "ifa-local" c then [c] else [])
                  ++ xpath_ifa_local_from (is_inet_family c)
                       (in_family && has_tag "interface-address" c) c) cs
  end.

Definition xpath_ifa_local (e : Element) : list Element :=
  xpath_ifa_local_from false false e.

(** ** The device session *)

Record Rpc : Type := {
  (* get_interface_information(interface_name=intf) *)
  get_interface_information : string -> Element;
  (* get_interface_information(interface_name=.., terse=True, normalize=True) *)
  get_interface_information_terse : string -> Element;
  (* get_ethernet_switching_interface_information(interface_name=intf) *)
  get_ethernet_switching_interface_information : string -> Element;
  (* get_config() *)
  get_config : Element
}.

Record Device : Type := {
  facts : string -> string;
  rpc : Rpc
}.

(** ** get_infos.py *)

Definition get_int_units (dev : Device) (intf : string) : outcome (list Z) :=
  let interface := get_interface_information (rpc dev) intf in
  all_units <- for_each (iter interface "logical-interface")
    (fun item all_units =>
       units <- text_of (find item "name") ;;
       parts <- split units "." ;;
       unit <- getitem parts 1 ;;
       n <- int_of_str (Str.strip unit) ;;
       Return (all_units ++ [n]))
    [] ;;
  Return (sorted all_units).

Definition get_int_vlans (dev : Device) (intf : string) : outcome (list Z) :=
  let facts := facts dev in
  if String.eqb (facts "ifd_style") "CLASSIC" then
    let interface := get_interface_information (rpc dev) intf in
    all_vlans <- for_each (iter interface "logical-interface")
      (fun item all_vlans =>
         vlandata <- text_of (find item "link-address") ;;
         parts <- split vlandata "." ;;
         vlandata <- getitem parts 1 ;;
         vlandata <- getitem (Str.split "]" vlandata) 0 ;;
         vlan <- getitem (Str.split " " vlandata) 0 ;;
         n <- int_of_str (Str.strip vlan) ;;
         Return (all_vlans ++ [n]))
      [] ;;
    Return (sorted all_vlans)
  else if String.eqb (facts "ifd_style") "SWITCH" then
    let interface := get_ethernet_switching_interface_information (rpc dev) intf in
    all_vlans <- for_each (iter interface "interface-vlan-member-list")
      (fun _ all_vlans =>
         for_each (iter interface "interface-vlan-member")
           (fun item all_vlans =>
              tagid <- text_of (find item "interface-vlan-member-tagid") ;;
              n <- int tagid ;;
              Return (all_vlans ++ [n]))
           all_vlans)
      [] ;;
    Return (sorted all_vlans)
  else Raise (TypeError "Unsupported device type").

Definition get_rts (dev : Device) : outcome (list Z) :=
  let config := get_config (rpc dev) in
  instances <- getitem (children config) (-2) ;;
  targets <- for_each (children instances)
    (fun item targets =>
       try_except
         (rts <- text_of (find item "vrf-target/community") ;;
          parts <- split rts ":" ;;
          rt <- getitem parts 2 ;;
          n <- int_of_str rt ;;
          Return (targets ++ [n]))
         (Return targets))
    [] ;;
  Return (sorted targets).

Definition get_rds (dev : Device) : outcome (list Z) :=
  let config := get_config (rpc dev) in
  instances <- getitem (children config) (-2) ;;
  distinguishers <- for_each (children instances)
    (fun item distinguishers =>
       try_except
         (rds <- text_of (find item "route-distinguisher/rd-type") ;;
          parts <- split rds ":" ;;
          rd <- getitem parts 1 ;;
          n <- int_of_str rd ;;
          Return (distinguishers ++ [n]))
         (Return distinguishers))
    [] ;;
  Return (sorted distinguishers).

Definition is_unit_int (dev : Device) (intf unit : string) : outcome bool :=
  units <- get_int_units dev intf ;;
  n <- int_of_str unit ;;
  Return (contains units n).

Definition is_vlan_int (dev : Device) (intf vlan : string) : outcome bool :=
  vlans <- get_int_vlans dev intf ;;
  n <- int_of_str vlan ;;
  Return (contains vlans n).

Definition is_rt (dev : Device) (rt : string) : outcome bool :=
  rts <- get_rts dev ;;
  n <- int_of_str rt ;;
  Return (contains rts n).

Definition is_rd (dev : Device) (rd : string) : outcome bool :=
  rds <- get_rds dev ;;
  n <- int_of_str rd ;;
  Return (contains rds n).

Definition next_unit_int (fuel : nat) (dev : Device) (intf : string) (start : Z)
  : outcome Z :=
  units <- get_int_units dev intf ;;
  next fuel (ifilterfalse (contains units) (count start)).

(** The normalised VLAN text of a record:
    [item.find('link-address').text.split('.')[1].split(']')[0].split(' ')[0].strip()] *)
Definition vlan_text (item : Element) : outcome string :=
  linkaddr <- text_of (find item "link-address") ;;
  parts <- split linkaddr "." ;;
  v <- getitem parts 1 ;;
  v <- getitem (Str.split "]" v) 0 ;;
  v <- getitem (Str.split " " v) 0 ;;
  Return (Str.strip v).

(** The unit text of a record: [item.find('name').text.split('.')[1].strip()] *)
Definition unit_text (item : Element) : outcome string :=
  name <- text_of (find item "name") ;;
  parts <- split name "." ;;
  u <- getitem parts 1 ;;
  Return (Str.strip u).

(** The loop of [find_unit_for_vlan]; leaving it without a [return] makes
    the function return [None]. *)
Fixpoint find_unit_for_vlan_scan (items : list Element) (vlan : string)
  : outcome (option string) :=
  match items with
  | [] => Return None
  | item :: rest =>
      v <- vlan_text item ;;
      if String.eqb v vlan then u <- unit_text item ;; Return (Some u)
      else find_unit_for_vlan_scan rest vlan
  end.

Definition find_unit_for_vlan (dev : Device) (intf vlan : string)
  : outcome (option string) :=
  let interface := get_interface_information (rpc dev) intf in
  find_unit_for_vlan_scan (iter interface "logical-interface") vlan.

(** [loopback.xpath("...")[0].text] *)
Definition loopback_ip (loopback : Element) : outcome (option string) :=
  ifa <- getitem (xpath_ifa_local loopback) 0 ;;
  Return (text ifa).

Definition next_unit_int_lo (fuel : nat) (dev : Device) (intf : string) (start : Z)
  : outcome (Z * option string) :=
  let interface := get_interface_information (rpc dev) intf in
  let loopback := get_interface_information_terse (rpc dev) "lo0.0" in
  all_units <- for_each (iter interface "logical-interface")
    (fun item all_units =>
       units <- text_of (find item "name") ;;
       parts <- split units "." ;;
       unit <- getitem parts 1 ;;
       n <- int_of_str (Str.strip unit) ;;
       Return (all_units ++ [n]))
    [] ;;
  next_unit <- next fuel (ifilterfalse (contains all_units) (count start)) ;;
  loopbackip <- loopback_ip loopback ;;
  Return (next_unit, loopbackip).

(** In [find_unit_for_vlan_lo] the local [unit] is bound only by a matching
    record: [None] stands for the name being unbound. *)
Definition find_unit_for_vlan_lo (dev : Device) (intf vlan : string)
  : outcome (string * option string) :=
  let interface := get_interface_information (rpc dev) intf in
  let loopback := get_interface_information_terse (rpc dev) "lo0.0" in
  loopbackip <- loopback_ip loopback ;;
  unit <- for_each (iter interface "logical-interface")
    (fun item unit =>
       v <- vlan_text item ;;
       if String.eqb v vlan then u <- unit_text item ;; Return (Some u)
       else Return unit)
    None ;;
  match unit with
  | Some u => Return (u, loopbackip)
  | None => Raise UnboundLocalError
  end.

(** ** Records, identifiers and the vocabulary of the properties *)

(** The records a unit or VLAN query works on. *)
Definition logical_interfaces (dev : Device) (intf : string) : list Element :=
  iter (get_interface_information (rpc dev) intf) "logical-interface".

(** The unit number of a record: the integer read from the component after
    the first [.] of the text of its [name] field, when there is one. *)
Definition unit_number (item : Element) : option Z :=
  match find item "name" with
  | Some e =>
      match text e with
      | Some s =>
          match nth_error (Str.split "." s) 1 with
          | Some u => Str.parse_int (Str.strip u)
          | None => None
          end
      | None => None
      end
  | None => None
  end.

(** The VLAN tag of a record on a CLASSIC device: the integer read from the
    text of its [link-address] field, between the first [.] and the first
    [\]] or blank after it. *)
Definition vlan_number (item : Element) : option Z :=
  match find item "link-address" with
  | Some e =>
      match text e with
      | Some s =>
          match nth_error (Str.split "." s) 1 with
          | Some a =>
              Str.parse_int
                (Str.strip (hd EmptyString
                              (Str.split " " (hd EmptyString (Str.split "]" a)))))
          | None => None
          end
      | None => None
      end
  | None => None
  end.

(** The tag of a VLAN member on a SWITCH device. *)
Definition tagid_number (item : Element) : option Z :=
  match find item "interface-vlan-member-tagid" with
  | Some e =>
      match text e with
      | Some s => Str.parse_int s
      | None => None
      end
  | None => None
  end.

(** The integer in component [i] of the [:]-separated text found at [path]
    in a routing instance, when there is one. *)
Definition colon_field (path : string) (i : nat) (item : Element) : option Z :=
  match find item path with
  | Some e =>
      match text e with
      | Some s =>
          match nth_error (Str.split ":" s) i with
          | Some v => Str.parse_int v
          | None => None
          end
      | None => None
      end
  | None => None
  end.

Definition rt_value : Element -> option Z := colon_field "vrf-target/community" 2.

Definition rd_value : Element -> option Z := colon_field "route-distinguisher/rd-type" 1.

(** The field at [path] does not yield an integer, for a reason that needs
    no character table beyond ASCII: the record lacks the field, the field
    has no text, or its text is plain and [value] finds no integer in it. *)
Definition unreadable (path : string) (value : Element -> option Z) (item : Element)
  : Prop :=
  match find item path with
  | None => True
  | Some e =>
      match text e with
      | None => True
      | Some s => Str.plain s = true /\ value item = None
      end
  end.

(** The field at [path] yields an integer, or is unreadable in the sense
    above. *)
Definition legible (path : string) (value : Element -> option Z) (item : Element)
  : Prop :=
  value item <> None \/ unreadable path value item.

(** The values of the records that have one, in record order. *)
Definition present_values {A : Type} (value : A -> option Z) (items : list A) : list Z :=
  flat_map (fun item => match value item with Some z => [z] | None => [] end) items.

(** The number of distinct members of a list of used values. *)
Definition cardinal (units : list Z) : nat :=
  List.length (nodup Z.eq_dec units).

(** [n] is the smallest integer at or above [start] that is not in [units]. *)
Definition smallest_free (units : list Z) (start n : Z) : Prop :=
  start <= n /\
  ~ In n units /\
  (forall m, start <= m < n -> In m units).

(** The candidates [next] pulls from the source, in the order it examines
    them. *)
Fixpoint examined {A : Type} (fuel : nat) (it : filtered A) (k : nat) : list A :=
  match fuel with
  | O => []
  | S fuel' =>
      let x := source it k in
      x :: (if pred it x then examined fuel' it (S k) else [])
  end.

(** The items of [it] at positions [k], ..., [k + j - 1] all satisfy its
    predicate. *)
Definition all_skipped {A : Type} (it : filtered A) (k j : nat) : Prop :=
  forall i, (i < j)%nat -> pred it (source it (k + i)%nat) = true.

(** A loop that appends what it reads from each record. *)
Definition collect {A : Type} (parse : A -> outcome Z) (items : list A) (acc : list Z)
  : outcome (list Z) :=
  for_each items (fun item acc => n <- parse item ;; Return (acc ++ [n])) acc.

(** A loop that appends what it reads and passes over a record on any
    exception. *)
Definition collect_tolerant {A : Type} (parse : A -> outcome Z) (items : list A)
    (acc : list Z) : outcome (list Z) :=
  for_each items
    (fun item acc => try_except (n <- parse item ;; Return (acc ++ [n])) (Return acc)) acc.

(** What each loop reads from one record. *)

Definition unit_outcome (item : Element) : outcome Z :=
  units <- text_of (find item "name") ;;
  parts <- split units "." ;;
  unit <- getitem parts 1 ;;
  int_of_str (Str.strip unit).

Definition vlan_outcome (item : Element) : outcome Z :=
  vlandata <- text_of (find item "link-address") ;;
  parts <- split vlandata "." ;;
  vlandata <- getitem parts 1 ;;
  vlandata <- getitem (Str.split "]" vlandata) 0 ;;
  vlan <- getitem (Str.split " " vlandata) 0 ;;
  int_of_str (Str.strip vlan).

Definition tagid_outcome (item : Element) : outcome Z :=
  tagid <- text_of (find item "interface-vlan-member-tagid") ;;
  int tagid.

Definition colon_outcome (path : string) (i : nat) (item : Element) : outcome Z :=
  x <- text_of (find item path) ;;
  parts <- split x ":" ;;
  v <- getitem parts (Z.of_nat i) ;;
  int_of_str v.

Definition vlan_members (dev : Device) (intf : string) : list Element :=
  iter (get_ethernet_switching_interface_information (rpc dev) intf) "interface-vlan-member".

Definition vlan_member_lists (dev : Device) (intf : string) : list Element :=
  iter (get_ethernet_switching_interface_information (rpc dev) intf)
       "interface-vlan-member-list".

(** The members the SWITCH branch visits: all of them, once for every
    member list of the reply. *)
Definition visited_members (dev : Device) (intf : string) : list Element :=
  flat_map (fun _ => vlan_members dev intf) (vlan_member_lists dev intf).

(** The routing instances the RT and RD loops run over: [config[-2]]. *)
Definition routing_instances (dev : Device) : outcome Element :=
  getitem (children (get_config (rpc dev))) (-2).

(** [extracted dev intf ids l]: one of the extraction operations returns
    [l] on the replies of [dev], and [ids] are the identifiers its records
    carry, in record order.  For the SWITCH style the reply holds a single
    member list; for the route targets and distinguishers every routing
    instance is [legible]. *)
Inductive extracted (dev : Device) (intf : string) : list Z -> list Z -> Prop :=
| extracted_units l :
    get_int_units dev intf = Return l ->
    extracted dev intf (present_values unit_number (logical_interfaces dev intf)) l
| extracted_classic_vlans l :
    facts dev "ifd_style" = "CLASSIC" ->
    get_int_vlans dev intf = Return l ->
    extracted dev intf (present_values vlan_number (logical_interfaces dev intf)) l
| extracted_switch_vlans l :
    facts dev "ifd_style" = "SWITCH" ->
    List.length (vlan_member_lists dev intf) = 1%nat ->
    get_int_vlans dev intf = Return l ->
    extracted dev intf (present_values tagid_number (vlan_members dev intf)) l
| extracted_rts instances l :
    routing_instances dev = Return instances ->
    Forall (legible "vrf-target/community" rt_value) (children instances) ->
    get_rts dev = Return l ->
    extracted dev intf (present_values rt_value (children instances)) l
| extracted_rds instances l :
    routing_instances dev = Return instances ->
    Forall (legible "route-distinguisher/rd-type" rd_value) (children instances) ->
    get_rds dev = Return l ->
    extracted dev intf (present_values rd_value (children instances)) l.



(** ** Sample replies *)

Module Examples.

Definition leaf (t s : string) : Element := mkElement t (Some s) [].

Definition logical_interface (name link : string) : Element :=
  mkElement "logical-interface" None [leaf "name" name; leaf "link-address" link].

Definition interface_information (items : list Element) : Element :=
  mkElement "interface-information" None
    [mkElement "physical-interface" None (leaf "name" "ge-0/2/5" :: items)].

Definition loopback_information (ip : string) : Element :=
  mkElement "interface-information" None
    [mkElement "logical-interface" None
       [leaf "name" "lo0.0";
        mkElement "address-family" None
          [leaf "address-family-name" "inet";
           mkElement "interface-address" None [leaf "ifa-local" ip]]]].

Definition vlan_member (tagid : string) : Element :=
  mkElement "interface-vlan-member" None [leaf "interface-vlan-member-tagid" tagid].

Definition switching_information (lists : list (list Element)) : Element :=
  mkElement "switching-interface-information" None
    (map (mkElement "interface-vlan-member-list" None) lists).

Definition instance (name : string) (fields : list Element) : Element :=
  mkElement "instance" None (leaf "name" name :: fields).

Definition vrf_target (community : string) : Element :=
  mkElement "vrf-target" None [leaf "community" community].

Definition route_distinguisher (rd : string) : Element :=
  mkElement "route-distinguisher" None [leaf "rd-type" rd].

Definition configuration (instances : list Element) : Element :=
  mkElement "configuration" None
    [mkElement "interfaces" None [];
     mkElement "routing-instances" None instances;
     mkElement "system" None []].

Definition device (style : string) (interface switching config : Element) : Device :=
  {| facts := fun _ => style;
     rpc := {| get_interface_information := fun _ => interface;
               get_interface_information_terse := fun _ => loopback_information "10.1.1.1";
               get_ethernet_switching_interface_information := fun _ => switching;
               get_config := config |} |}.

Definition no_switching : Element := switching_information [].

Definition no_config : Element := configuration [].

(** Two instances with a target and a distinguisher, and one bare instance
    between them. *)
Definition router_instances : list Element :=
  [instance "red" [vrf_target "target:64512:27"; route_distinguisher "10.92.0.1:27"];
   instance "bare" [];
   instance "blue" [vrf_target "target:64512:5"; route_distinguisher "10.92.0.1:5"]].

(** Units 4, 2001 and 2002 on ge-0/2/5, each carrying the VLAN of its number. *)
Definition router : Device :=
  device "CLASSIC"
    (interface_information
       [logical_interface "ge-0/2/5.4" "VLAN-Tag [ 0x8100.4 ] ";
        logical_interface "ge-0/2/5.2001" "VLAN-Tag [ 0x8100.2001 ] ";
        logical_interface "ge-0/2/5.2002" "VLAN-Tag [ 0x8100.2002 ] "])
    no_switching (configuration router_instances).

Definition router_units : list Z := [4; 2001; 2002].

(** The records of [router] in another order. *)
Definition router_shuffled : Device :=
  device "CLASSIC"
    (interface_information
       [logical_interface "ge-0/2/5.2002" "VLAN-Tag [ 0x8100.2002 ] ";
        logical_interface "ge-0/2/5.4" "VLAN-Tag [ 0x8100.4 ] ";
        logical_interface "ge-0/2/5.2001" "VLAN-Tag [ 0x8100.2001 ] "])
    no_switching no_config.

(** A record without a name field, whose link address carries no number. *)
Definition nameless : Element :=
  mkElement "logical-interface" None [leaf "link-address" "VLAN-Tag [ 0x8100.none ] "].

(** A switch with VLANs 200 and 100 in one member list. *)
Definition switch : Device :=
  device "SWITCH" (interface_information [])
    (switching_information [[vlan_member "200"; vlan_member "100"]]) no_config.

(** A device of a style the module does not know. *)
Definition firewall : Device :=
  device "BRANCH" (interface_information []) no_switching no_config.

(** Two units of ge-0/2/5 that carry the same outer VLAN 2001 with different
    inner tags. *)
Definition qinq_router : Device :=
  device "CLASSIC"
    (interface_information
       [logical_interface "ge-0/2/5.4" "VLAN-Tag [ 0x8100.4 ] ";
        logical_interface "ge-0/2/5.2003" "VLAN-Tag [ 0x8100.2001 0x8100.10 ] ";
        logical_interface "ge-0/2/5.2004" "VLAN-Tag [ 0x8100.2001 0x8100.20 ] "])
    no_switching no_config.

(** Two routing instances that share one route target. *)
Definition extranet : Device :=
  device "CLASSIC" (interface_information []) no_switching
    (configuration
       [instance "red" [vrf_target "target:64512:27"; route_distinguisher "10.92.0.1:27"];
        instance "red-mgmt"
          [vrf_target "target:64512:27"; route_distinguisher "10.92.0.1:28"]]).

(** A switch whose reply holds two member lists. *)
Definition stacked_switch : Device :=
  device "SWITCH" (interface_information [])
    (switching_information [[vlan_member "100"]; [vlan_member "200"]]) no_config.

Definition router_with_nameless : Device :=
  device "CLASSIC"
    (interface_information
       [logical_interface "ge-0/2/5.4" "VLAN-Tag [ 0x8100.4 ] "; nameless])
    no_switching no_config.

(** [dev] with another reply to the loopback query. *)
Definition with_loopback (dev : Device) (loopback : Element) : Device :=
  {| facts := facts dev;
     rpc := {| get_interface_information := get_interface_information (rpc dev);
               get_interface_information_terse := fun _ => loopback;
               get_ethernet_switching_interface_information :=
                 get_ethernet_switching_interface_information (rpc dev);
               get_config := get_config (rpc dev) |} |}.

(** A loopback that has an IPv6 address only. *)
Definition loopback_inet6 : Element :=
  mkElement "interface-information" None
    [mkElement "logical-interface" None
       [leaf "name" "lo0.0";
        mkElement "address-family" None
          [leaf "address-family-name" "inet6";
           mkElement "interface-address" None [leaf "ifa-local" "2001:db8::1"]]]].

(** A switch whose members are not wrapped in a member list; the second one
    has no tag. *)
Definition flat_switch : Device :=
  device "SWITCH" (interface_information [])
    (mkElement "switching-interface-information" None
       [vlan_member "100"; mkElement "interface-vlan-member" None []])
    no_config.

(** A configuration reply with a single child. *)
Definition unconfigured : Device :=
  device "CLASSIC" (interface_information []) no_switching
    (mkElement "configuration" None [mkElement "routing-instances" None router_instances]).

End Examples.

(** * Properties *)

(** ** Facts about [sorted] *)

Lemma insert_sorted_perm (x : Z) (l : list Z) :
  Permutation (insert_sorted x l) (x :: l).
Proof.
  induction l as [|y l IH]; simpl.
  - apply Permutation_refl.
  - destruct (x <=? y).
    + apply Permutation_refl.
    + eapply perm_trans; [apply perm_skip, IH | apply perm_swap].
Qed.

Lemma sorted_perm (l : list Z) : Permutation (sorted l) l.
Proof.
  induction l as [|x l IH]; simpl.
  - constructor.
  - eapply perm_trans; [apply insert_sorted_perm | apply perm_skip, IH].
Qed.

Lemma insert_sorted_strongly (x : Z) (l : list Z) :
  StronglySorted Z.le l -> StronglySorted Z.le (insert_sorted x l).
Proof.
  induction l as [|y l IH]; simpl; intros Hs.
  - repeat constructor.
  - destruct (Z.leb_spec x y) as [Hxy|Hxy].
    + constructor; [exact Hs|].
      constructor; [exact Hxy|].
      apply StronglySorted_inv in Hs. destruct Hs as [_ Hall].
      eapply Forall_impl; [|exact Hall]. intros a Ha. simpl in Ha. lia.
    + apply StronglySorted_inv in Hs. destruct Hs as [Hs Hall].
      constructor; [apply IH; exact Hs|].
      eapply Permutation_Forall.
      * apply Permutation_sym, insert_sorted_perm.
      * constructor; [lia | exact Hall].
Qed.

Lemma sorted_strongly (l : list Z) : StronglySorted Z.le (sorted l).
Proof.
  induction l as [|x l IH]; simpl.
  - constructor.
  - apply insert_sorted_strongly, IH.
Qed.

Lemma sorted_Sorted (l : list Z) : Sorted Z.le (sorted l).
Proof. apply StronglySorted_Sorted, sorted_strongly. Qed.

(** Two sorted lists with the same members, counted with repetition, are
    the same list. *)
Lemma strongly_sorted_perm_eq (l l' : list Z) :
  StronglySorted Z.le l -> StronglySorted Z.le l' -> Permutation l l' -> l = l'.
Proof.
  revert l'. induction l as [|x l IH]; intros l' Hl Hl' Hp.
  - apply Permutation_nil in Hp. now subst.
  - destruct l' as [|y l'].
    + apply Permutation_sym, Permutation_nil in Hp. discriminate.
    + apply StronglySorted_inv in Hl. destruct Hl as [Hl Hx].
      apply StronglySorted_inv in Hl'. destruct Hl' as [Hl' Hy].
      assert (Hxy : x = y).
      { assert (Hin1 : In x (y :: l')) by (eapply Permutation_in; [exact Hp | now left]).
        assert (Hin2 : In y (x :: l))
          by (eapply Permutation_in; [apply Permutation_sym; exact Hp | now left]).
        rewrite Forall_forall in Hx, Hy.
        destruct Hin1 as [->|Hin1]; [reflexivity|].
        destruct Hin2 as [->|Hin2]; [reflexivity|].
        specialize (Hx _ Hin2). specialize (Hy _ Hin1). simpl in Hx, Hy. lia. }
      subst y. f_equal. apply IH; trivial.
      eapply Permutation_cons_inv; exact Hp.
Qed.

Lemma sorted_perm_invariant (l l' : list Z) :
  Permutation l l' -> sorted l = sorted l'.
Proof.
  intros Hp. apply strongly_sorted_perm_eq; try apply sorted_strongly.
  eapply perm_trans; [apply sorted_perm|].
  eapply perm_trans; [exact Hp|]. apply Permutation_sym, sorted_perm.
Qed.

Lemma contains_In (l : list Z) (x : Z) : contains l x = true <-> In x l.
Proof.
  unfold contains. rewrite existsb_exists. split.
  - intros [y [Hy Heq]]. apply Z.eqb_eq in Heq. now subst.
  - intros Hin. exists x. split; [exact Hin | apply Z.eqb_refl].
Qed.

Lemma contains_sorted (l : list Z) (x : Z) : contains (sorted l) x = contains l x.
Proof.
  apply eq_true_iff_eq. rewrite !contains_In.
  split; apply Permutation_in; [|apply Permutation_sym]; apply sorted_perm.
Qed.

(** ** Facts about [next] on a filtered iterator *)

Section Next.

Context {A : Type}.
Variable it : filtered A.

Local Open Scope nat_scope.

Lemma all_skipped_shift (k j : nat) :
  pred it (source it k) = true -> all_skipped it (S k) j -> all_skipped it k (S j).
Proof.
  intros Hk Hs [|i] Hi.
  - now rewrite Nat.add_0_r.
  - replace (k + S i)%nat with (S k + i)%nat by lia. apply Hs. lia.
Qed.

Lemma next_from_never_raises (fuel k : nat) (e : exn) :
  next_from fuel it k <> Raise e.
Proof.
  revert k. induction fuel as [|fuel IH]; intros k; simpl.
  - discriminate.
  - destruct (pred it (source it k)); [apply IH | discriminate].
Qed.

Lemma next_from_return (fuel k : nat) (x : A) :
  next_from fuel it k = Return x ->
  exists j, (j < fuel)%nat /\ x = source it (k + j) /\
            pred it x = false /\ all_skipped it k j.
Proof.
  revert k. induction fuel as [|fuel IH]; intros k; simpl.
  - discriminate.
  - destruct (pred it (source it k)) eqn:Hk.
    + intros H. apply IH in H. destruct H as [j [Hj [Hx [Hp Hs]]]].
      exists (S j). repeat split.
      * lia.
      * now replace (k + S j)%nat with (S k + j)%nat by lia.
      * exact Hp.
      * now apply all_skipped_shift.
    + intros H. injection H as <-. exists 0%nat. repeat split.
      * lia.
      * now rewrite Nat.add_0_r.
      * exact Hk.
      * intros i Hi. lia.
Qed.

Lemma next_from_out_of_fuel (fuel k : nat) :
  next_from fuel it k = OutOfFuel -> all_skipped it k fuel.
Proof.
  revert k. induction fuel as [|fuel IH]; intros k; simpl.
  - intros _ i Hi. lia.
  - destruct (pred it (source it k)) eqn:Hk; [|discriminate].
    intros H. apply all_skipped_shift; auto.
Qed.

Lemma next_from_enough (fuel k j : nat) :
  all_skipped it k j -> pred it (source it (k + j)) = false -> (j < fuel)%nat ->
  next_from fuel it k = Return (source it (k + j)).
Proof.
  revert k j. induction fuel as [|fuel IH]; intros k j Hs Hp Hj; [lia|].
  simpl. destruct j as [|j].
  - rewrite Nat.add_0_r in *. now rewrite Hp.
  - pose proof (Hs 0%nat ltac:(lia)) as H0. rewrite Nat.add_0_r in H0.
    rewrite H0.
    replace (k + S j)%nat with (S k + j)%nat in * by lia.
    apply IH; [|exact Hp|lia].
    intros i Hi. replace (S k + i)%nat with (k + S i)%nat by lia. apply Hs. lia.
Qed.

Lemma examined_skipped (fuel k : nat) (x : A) :
  In x (examined fuel it k) ->
  exists j, (j < fuel)%nat /\ x = source it (k + j) /\ all_skipped it k j.
Proof.
  revert k. induction fuel as [|fuel IH]; intros k; simpl; [tauto|].
  intros [<-|Hin].
  - exists 0%nat. repeat split; [lia | now rewrite Nat.add_0_r | intros i Hi; lia].
  - destruct (pred it (source it k)) eqn:Hk; [|destruct Hin].
    apply IH in Hin. destruct Hin as [j [Hj [Hx Hs]]].
    exists (S j). repeat split.
    + lia.
    + now replace (k + S j)%nat with (S k + j)%nat by lia.
    + now apply all_skipped_shift.
Qed.

End Next.

Lemma next_from_ext {A : Type} (p q : A -> bool) (s : stream A) (fuel k : nat) :
  (forall x, p x = q x) ->
  next_from fuel (ifilterfalse p s) k = next_from fuel (ifilterfalse q s) k.
Proof.
  intros Hpq. revert k. induction fuel as [|fuel IH]; intros k; simpl; [reflexivity|].
  rewrite Hpq. destruct (q (s k)); [apply IH | reflexivity].
Qed.

(** ** The search over [count(start)] against a list of used values *)

Section FreeSearch.

Variable units : list Z.
Variable start : Z.

Let it : filtered Z := ifilterfalse (contains units) (count start).

(** A run of [j] consecutive used values has at most as many members as
    there are distinct used values. *)
Lemma skipped_run_bounded (j : nat) :
  all_skipped it 0 j -> (j <= cardinal units)%nat.
Proof.
  intros Hs. unfold cardinal.
  assert (Hlen : List.length (map (count start) (seq 0 j)) = j)
    by now rewrite length_map, length_seq.
  rewrite <- Hlen at 1.
  apply NoDup_incl_length.
  - apply Injective_map_NoDup; [|apply seq_NoDup].
    intros a b Hab. unfold count in Hab. lia.
  - intros x Hx. apply in_map_iff in Hx. destruct Hx as [i [<- Hi]].
    apply in_seq in Hi. apply nodup_In, contains_In.
    apply (Hs i). lia.
Qed.

Lemma smallest_free_unique (n n' : Z) :
  smallest_free units start n -> smallest_free units start n' -> n = n'.
Proof.
  intros [H1 [H2 H3]] [H1' [H2' H3']].
  destruct (Z.lt_trichotomy n n') as [Hlt|[Heq|Hgt]]; [|exact Heq|].
  - exfalso. apply H2, H3'. lia.
  - exfalso. apply H2', H3. lia.
Qed.

Lemma next_return_smallest_free (fuel : nat) (n : Z) :
  next fuel it = Return n ->
  smallest_free units start n /\ n <= start + Z.of_nat (cardinal units).
Proof.
  intros H. apply next_from_return in H.
  destruct H as [j [Hj [Hn [Hp Hs]]]]. simpl in Hn, Hp.
  pose proof (skipped_run_bounded j Hs) as Hb.
  unfold count in Hn. split; [|lia].
  split; [lia|]. split.
  - intros Hin. apply contains_In in Hin. congruence.
  - intros m Hm. apply contains_In.
    specialize (Hs (Z.to_nat (m - start))). simpl in Hs. unfold count in Hs.
    replace (start + Z.of_nat (Z.to_nat (m - start))) with m in Hs by lia.
    apply Hs. lia.
Qed.

(** With more fuel than there are distinct used values the search returns. *)
Lemma next_returns (fuel : nat) :
  (cardinal units < fuel)%nat -> exists n, next fuel it = Return n.
Proof.
  intros Hf. unfold next. destruct (next_from fuel it 0) as [n|e|] eqn:H.
  - now exists n.
  - now apply next_from_never_raises in H.
  - apply next_from_out_of_fuel, skipped_run_bounded in H. lia.
Qed.

Lemma next_fuel_irrelevant (fuel fuel' : nat) :
  (cardinal units < fuel)%nat -> (cardinal units < fuel')%nat ->
  next fuel it = next fuel' it.
Proof.
  intros Hf Hf'.
  destruct (next_returns fuel Hf) as [n Hn], (next_returns fuel' Hf') as [n' Hn'].
  rewrite Hn, Hn'. f_equal.
  apply smallest_free_unique; eapply next_return_smallest_free; eassumption.
Qed.

Lemma examined_bounded (fuel : nat) (x : Z) :
  In x (examined fuel it 0) -> start <= x <= start + Z.of_nat (cardinal units).
Proof.
  intros Hin. apply examined_skipped in Hin. destruct Hin as [j [_ [Hx Hs]]].
  apply skipped_run_bounded in Hs. simpl in Hx. unfold count in Hx. lia.
Qed.

End FreeSearch.

Lemma cardinal_le_length (units : list Z) :
  (cardinal units <= List.length units)%nat.
Proof.
  unfold cardinal. apply NoDup_incl_length; [apply NoDup_nodup|].
  intros x Hx. now apply nodup_In in Hx.
Qed.

(** ** Facts about the monad and the loops *)

Lemma bind_assoc {A B C : Type} (m : outcome A) (f : A -> outcome B) (g : B -> outcome C) :
  (y <- (x <- m ;; f x) ;; g y) = (x <- m ;; y <- f x ;; g y).
Proof. now destruct m. Qed.

Lemma for_each_ext {A S : Type} (items : list A) (body body' : A -> S -> outcome S) (s : S) :
  (forall item s, In item items -> body item s = body' item s) ->
  for_each items body s = for_each items body' s.
Proof.
  revert s. induction items as [|item items IH]; intros s H; simpl; [reflexivity|].
  rewrite H by now left. destruct (body' item s); simpl; trivial.
  apply IH. intros. apply H. now right.
Qed.

Lemma for_each_app {A S : Type} (xs ys : list A) (body : A -> S -> outcome S) (s : S) :
  for_each (xs ++ ys) body s = (s' <- for_each xs body s ;; for_each ys body s').
Proof.
  revert s. induction xs as [|x xs IH]; intros s; simpl; [reflexivity|].
  destruct (body x s); simpl; trivial.
Qed.

Section Collect.

Context {A : Type}.
Variable parse : A -> outcome Z.

Lemma collect_return (items : list A) (zs acc : list Z) :
  Forall2 (fun item z => parse item = Return z) items zs ->
  collect parse items acc = Return (acc ++ zs).
Proof.
  intros H. revert acc. induction H as [|item z items zs Hz _ IH]; intros acc; simpl.
  - now rewrite app_nil_r.
  - unfold collect in *. simpl. rewrite Hz. simpl. rewrite IH.
    now rewrite <- app_assoc.
Qed.

Lemma collect_inv (items : list A) (acc l : list Z) :
  collect parse items acc = Return l ->
  exists zs, l = acc ++ zs /\ Forall2 (fun item z => parse item = Return z) items zs.
Proof.
  revert acc. induction items as [|item items IH]; intros acc; unfold collect; simpl.
  - intros H. injection H as <-. exists []. split; [now rewrite app_nil_r | constructor].
  - destruct (parse item) as [z| |] eqn:Hz; simpl; try discriminate.
    intros H. apply IH in H. destruct H as [zs [-> HF]].
    exists (z :: zs). split; [now rewrite <- app_assoc | now constructor].
Qed.

Lemma collect_raise (items : list A) (acc : list Z) (item : A) (e : exn) :
  (forall x, parse x <> OutOfFuel) ->
  In item items -> parse item = Raise e ->
  exists e', collect parse items acc = Raise e'.
Proof.
  intros Hfuel. revert acc.
  induction items as [|x items IH]; intros acc Hin He; [destruct Hin|].
  unfold collect. simpl. destruct (parse x) as [z|e'|] eqn:Hx; simpl.
  - destruct Hin as [->|Hin]; [congruence|]. now apply IH.
  - now exists e'.
  - now apply Hfuel in Hx.
Qed.

Lemma collect_tolerant_return (value : A -> option Z) (items : list A) (acc : list Z) :
  (forall x, parse x <> OutOfFuel) ->
  (forall x z, parse x = Return z <-> value x = Some z) ->
  collect_tolerant parse items acc = Return (acc ++ present_values value items).
Proof.
  intros Hfuel Hval. revert acc.
  induction items as [|x items IH]; intros acc; unfold collect_tolerant; simpl.
  - now rewrite app_nil_r.
  - destruct (parse x) as [z|e|] eqn:Hx; simpl.
    + apply Hval in Hx. rewrite Hx. simpl.
      unfold collect_tolerant in IH. rewrite IH. now rewrite <- app_assoc.
    + destruct (value x) as [z|] eqn:Hv.
      * apply Hval in Hv. congruence.
      * simpl. apply IH.
    + now apply Hfuel in Hx.
Qed.

End Collect.

Ltac step_binds :=
  repeat match goal with
         | |- context [bind ?m _] => destruct m eqn:?; simpl
         end.

Lemma getitem_nat {A : Type} (l : list A) (i : nat) :
  getitem l (Z.of_nat i) =
  match nth_error l i with Some a => Return a | None => Raise IndexError end.
Proof.
  unfold getitem. cbv zeta.
  assert (Hpos : (Z.of_nat i <? 0) = false) by (apply Z.ltb_ge; lia).
  rewrite Hpos. cbv iota. rewrite Hpos, Nat2Z.id. simpl orb.
  destruct (Z.leb_spec (Z.of_nat (List.length l)) (Z.of_nat i)) as [Hle|_]; [|reflexivity].
  assert (Hnone : nth_error l i = None) by (apply nth_error_None; lia).
  now rewrite Hnone.
Qed.

Lemma split_not_nil (sep : ascii) (s : string) : Str.split sep s <> [].
Proof.
  destruct s as [|c s]; simpl; [discriminate|].
  destruct (Ascii.eqb c sep); [discriminate|].
  destruct (Str.split sep s); discriminate.
Qed.

Lemma getitem_split_0 (sep : ascii) (s : string) :
  getitem (Str.split sep s) 0 = Return (hd EmptyString (Str.split sep s)).
Proof.
  change 0 with (Z.of_nat 0). rewrite getitem_nat.
  pose proof (split_not_nil sep s) as H.
  destruct (Str.split sep s); [contradiction | reflexivity].
Qed.

Lemma split_first_sep (sep : ascii) (p q : string) :
  Str.occurs sep p = false ->
  Str.split sep (p ++ String sep q) = p :: Str.split sep q.
Proof.
  induction p as [|c p IH]; simpl; intros H.
  - now rewrite Ascii.eqb_refl.
  - apply orb_false_iff in H. destruct H as [Hc Hp].
    now rewrite Hc, (IH Hp).
Qed.

(** The unit number is read between the first and the second [.] of the
    name. *)
Lemma unit_number_after_first_dot (item e : Element) (p q : string) :
  find item "name" = Some e ->
  text e = Some (p ++ String "." q)%string ->
  Str.occurs "." p = false ->
  unit_number item = Str.parse_int (Str.strip (hd EmptyString (Str.split "." q))).
Proof.
  intros Hfind Htext Hp. unfold unit_number.
  rewrite Hfind, Htext, (split_first_sep "." p q Hp).
  pose proof (split_not_nil "." q) as Hq.
  destruct (Str.split "." q); [contradiction | reflexivity].
Qed.

Lemma int_of_str_spec (s : string) :
  int_of_str s = match Str.parse_int s with Some z => Return z | None => Raise ValueError end.
Proof. reflexivity. Qed.

Ltac raises := cbn [bind]; first [reflexivity | eexists; reflexivity].

(** Settles [legible] for every record of a given list by evaluation. *)
Ltac all_legible :=
  repeat (apply Forall_cons;
          [first [left; vm_compute; discriminate
                 | right; vm_compute; first [exact I | split; reflexivity]]|]);
  apply Forall_nil.

Lemma unit_outcome_spec (item : Element) :
  match unit_number item with
  | Some z => unit_outcome item = Return z
  | None => exists e, unit_outcome item = Raise e
  end.
Proof.
  unfold unit_number, unit_outcome, text_of, split.
  destruct (find item "name") as [e|]; cbn [bind]; [|raises].
  destruct (text e) as [s|]; cbn [bind]; [|raises].
  change 1 with (Z.of_nat 1). rewrite getitem_nat.
  destruct (nth_error (Str.split "." s) 1) as [u|]; cbn [bind]; [|raises].
  unfold int_of_str. destruct (Str.parse_int (Str.strip u)); raises.
Qed.

Lemma vlan_outcome_spec (item : Element) :
  match vlan_number item with
  | Some z => vlan_outcome item = Return z
  | None => exists e, vlan_outcome item = Raise e
  end.
Proof.
  unfold vlan_number, vlan_outcome, text_of, split.
  destruct (find item "link-address") as [e|]; cbn [bind]; [|raises].
  destruct (text e) as [s|]; cbn [bind]; [|raises].
  change 1 with (Z.of_nat 1). rewrite getitem_nat.
  destruct (nth_error (Str.split "." s) 1) as [a|]; cbn [bind]; [|raises].
  rewrite getitem_split_0. cbn [bind]. rewrite getitem_split_0. cbn [bind].
  unfold int_of_str. destruct (Str.parse_int _); raises.
Qed.

Lemma tagid_outcome_spec (item : Element) :
  match tagid_number item with
  | Some z => tagid_outcome item = Return z
  | None => exists e, tagid_outcome item = Raise e
  end.
Proof.
  unfold tagid_number, tagid_outcome, text_of, int, int_of_str.
  destruct (find item "interface-vlan-member-tagid") as [e|]; cbn [bind]; [|raises].
  destruct (text e) as [s|]; cbn [bind]; [|raises].
  destruct (Str.parse_int s); raises.
Qed.

Lemma colon_outcome_spec (path : string) (i : nat) (item : Element) :
  match colon_field path i item with
  | Some z => colon_outcome path i item = Return z
  | None => exists e, colon_outcome path i item = Raise e
  end.
Proof.
  unfold colon_field, colon_outcome, text_of, split.
  destruct (find item path) as [e|]; cbn [bind]; [|raises].
  destruct (text e) as [s|]; cbn [bind]; [|raises].
  rewrite getitem_nat.
  destruct (nth_error (Str.split ":" s) i) as [v|]; cbn [bind]; [|raises].
  unfold int_of_str. destruct (Str.parse_int v); raises.
Qed.

(** Reading one record either yields its value or raises: it runs no
    unbounded loop. *)
Section Reads.

Variable value : Element -> option Z.
Variable parse : Element -> outcome Z.
Hypothesis parse_spec : forall item,
  match value item with
  | Some z => parse item = Return z
  | None => exists e, parse item = Raise e
  end.

Lemma parse_return_iff (item : Element) (z : Z) :
  parse item = Return z <-> value item = Some z.
Proof.
  pose proof (parse_spec item) as H. destruct (value item) as [z'|].
  - rewrite H. split; congruence.
  - destruct H as [e He]. rewrite He. split; discriminate.
Qed.

Lemma parse_has_fuel (item : Element) : parse item <> OutOfFuel.
Proof.
  pose proof (parse_spec item) as H. destruct (value item) as [z'|].
  - now rewrite H.
  - destruct H as [e He]. now rewrite He.
Qed.

Lemma parse_none_raises (item : Element) :
  value item = None -> exists e, parse item = Raise e.
Proof.
  intros Hv. pose proof (parse_spec item) as H. now rewrite Hv in H.
Qed.

Lemma collect_values (items : list Element) (zs : list Z) :
  Forall2 (fun item z => value item = Some z) items zs ->
  collect parse items [] = Return zs.
Proof.
  intros H. rewrite (collect_return parse items zs []); [reflexivity|].
  eapply Forall2_impl; [|exact H]. intros item z Hz. now apply parse_return_iff.
Qed.

Lemma collect_values_inv (items : list Element) (l : list Z) :
  collect parse items [] = Return l ->
  Forall2 (fun item z => value item = Some z) items l.
Proof.
  intros H. apply collect_inv in H. destruct H as [zs [-> HF]]. simpl.
  eapply Forall2_impl; [|exact HF]. intros item z Hz. now apply parse_return_iff.
Qed.

Lemma collect_malformed (items : list Element) (item : Element) :
  In item items -> value item = None -> exists e, collect parse items [] = Raise e.
Proof.
  intros Hin Hv. destruct (parse_none_raises item Hv) as [e He].
  eapply collect_raise; eauto using parse_has_fuel.
Qed.

End Reads.

(** ** The functions in terms of what they read from each record *)

Lemma get_int_units_collect (dev : Device) (intf : string) :
  get_int_units dev intf =
  (all_units <- collect unit_outcome (logical_interfaces dev intf) [] ;;
   Return (sorted all_units)).
Proof.
  unfold get_int_units, collect, logical_interfaces.
  erewrite for_each_ext; [reflexivity|].
  intros item acc _. unfold unit_outcome. now step_binds.
Qed.

Lemma next_unit_int_lo_collect (fuel : nat) (dev : Device) (intf : string) (start : Z) :
  next_unit_int_lo fuel dev intf start =
  (all_units <- collect unit_outcome (logical_interfaces dev intf) [] ;;
   next_unit <- next fuel (ifilterfalse (contains all_units) (count start)) ;;
   loopbackip <- loopback_ip (get_interface_information_terse (rpc dev) "lo0.0") ;;
   Return (next_unit, loopbackip)).
Proof.
  unfold next_unit_int_lo, collect, logical_interfaces.
  erewrite for_each_ext; [reflexivity|].
  intros item acc _. unfold unit_outcome. now step_binds.
Qed.

(** The combined variant runs the search of [next_unit_int] and then reads
    the loopback address. *)
Lemma next_unit_int_lo_unfold (fuel : nat) (dev : Device) (intf : string) (start : Z) :
  next_unit_int_lo fuel dev intf start =
  (next_unit <- next_unit_int fuel dev intf start ;;
   loopbackip <- loopback_ip (get_interface_information_terse (rpc dev) "lo0.0") ;;
   Return (next_unit, loopbackip)).
Proof.
  rewrite next_unit_int_lo_collect. unfold next_unit_int.
  rewrite get_int_units_collect.
  destruct (collect unit_outcome (logical_interfaces dev intf) []) as [all_units|e|];
    simpl; trivial.
  unfold next.
  rewrite (next_from_ext (contains (sorted all_units)) (contains all_units));
    [reflexivity | apply contains_sorted].
Qed.

Lemma get_int_units_values (dev : Device) (intf : string) (zs : list Z) :
  Forall2 (fun item z => unit_number item = Some z) (logical_interfaces dev intf) zs ->
  get_int_units dev intf = Return (sorted zs).
Proof.
  intros H. rewrite get_int_units_collect.
  now rewrite (collect_values unit_number unit_outcome unit_outcome_spec _ zs H).
Qed.

Lemma get_int_units_inv (dev : Device) (intf : string) (l : list Z) :
  get_int_units dev intf = Return l ->
  exists zs, l = sorted zs /\
             Forall2 (fun item z => unit_number item = Some z) (logical_interfaces dev intf) zs.
Proof.
  rewrite get_int_units_collect.
  destruct (collect unit_outcome (logical_interfaces dev intf) []) as [zs|e|] eqn:Hc;
    simpl; try discriminate.
  intros H. injection H as <-. exists zs. split; [reflexivity|].
  eapply collect_values_inv; [apply unit_outcome_spec | exact Hc].
Qed.

Lemma get_int_units_malformed (dev : Device) (intf : string) (item : Element) :
  In item (logical_interfaces dev intf) -> unit_number item = None ->
  exists e, get_int_units dev intf = Raise e.
Proof.
  intros Hin Hv. rewrite get_int_units_collect.
  destruct (collect_malformed unit_number unit_outcome unit_outcome_spec _ _ Hin Hv)
    as [e He].
  rewrite He. now exists e.
Qed.

(** ** The next free unit *)

(** C1: given the unit list [units] extracted by [get_int_units], the
    next-free search returns, for any fuel above the number of distinct
    units, the smallest integer [n] with [start <= n] that is not a unit:
    every integer of [start, n) is a unit, no free integer at or above
    [start] lies below [n], [start] itself is returned when it is free, and
    in particular when there are no units.  The combined loopback variant
    returns the same [n]. *)
Theorem next_unit_int_smallest_free (dev : Device) (intf : string) (start : Z)
    (units : list Z) :
  get_int_units dev intf = Return units ->
  exists n,
    (forall fuel, (cardinal units < fuel)%nat ->
       next_unit_int fuel dev intf start = Return n /\
       next_unit_int_lo fuel dev intf start =
         (ip <- loopback_ip (get_interface_information_terse (rpc dev) "lo0.0") ;;
          Return (n, ip))) /\
    start <= n /\
    ~ In n units /\
    (forall m, start <= m < n -> In m units) /\
    (forall m, start <= m -> ~ In m units -> n <= m) /\
    (~ In start units -> n = start) /\
    (units = [] -> n = start).
Proof.
  intros Hunits.
  destruct (next_returns units start (S (cardinal units))) as [n Hn]; [lia|].
  destruct (next_return_smallest_free units start _ n Hn) as [[Hge [Hfree Hbelow]] _].
  assert (Hmin : forall m, start <= m -> ~ In m units -> n <= m).
  { intros m Hm Hnot. destruct (Z_le_gt_dec n m) as [|Hgt]; [assumption|].
    exfalso. apply Hnot, Hbelow. lia. }
  exists n. repeat split; trivial.
  - unfold next_unit_int. rewrite Hunits. simpl.
    rewrite <- Hn. apply next_fuel_irrelevant; lia.
  - rewrite next_unit_int_lo_unfold. unfold next_unit_int. rewrite Hunits. simpl.
    rewrite (next_fuel_irrelevant units start fuel (S (cardinal units))) by lia.
    now rewrite Hn.
  - intros Hstart. specialize (Hmin start ltac:(lia) Hstart). lia.
  - intros ->. specialize (Hmin start ltac:(lia) ltac:(intros [])). lia.
Qed.

Lemma next_unit_int_smallest_free_witness :
  exists n,
    (forall fuel, (cardinal Examples.router_units < fuel)%nat ->
       next_unit_int fuel Examples.router "ge-0/2/5" 2001 = Return n /\
       next_unit_int_lo fuel Examples.router "ge-0/2/5" 2001 =
         (ip <- loopback_ip
                  (get_interface_information_terse (rpc Examples.router) "lo0.0") ;;
          Return (n, ip))) /\
    2001 <= n /\
    ~ In n Examples.router_units /\
    (forall m, 2001 <= m < n -> In m Examples.router_units) /\
    (forall m, 2001 <= m -> ~ In m Examples.router_units -> n <= m) /\
    (~ In 2001 Examples.router_units -> n = 2001) /\
    (Examples.router_units = [] -> n = 2001).
Proof.
  apply (next_unit_int_smallest_free Examples.router "ge-0/2/5" 2001 Examples.router_units).
  vm_compute. reflexivity.
Defined.

(** C2: the upward scan terminates on every extracted unit list: with fuel
    for one candidate more than there are distinct units it returns a
    result [n <= start + |U| + 1], more fuel does not change the result,
    and whatever the fuel no candidate beyond [start + |U| + 1] is
    examined.  The same holds for the scan of the combined loopback
    variant. *)
Theorem next_unit_int_terminates (dev : Device) (intf : string) (start : Z)
    (units : list Z) :
  get_int_units dev intf = Return units ->
  exists n,
    n <= start + Z.of_nat (cardinal units) + 1 /\
    (forall fuel, (cardinal units < fuel)%nat ->
       next_unit_int fuel dev intf start = Return n /\
       next_unit_int_lo fuel dev intf start =
         (ip <- loopback_ip (get_interface_information_terse (rpc dev) "lo0.0") ;;
          Return (n, ip))) /\
    (forall fuel c,
       In c (examined fuel (ifilterfalse (contains units) (count start)) 0) ->
       start <= c <= start + Z.of_nat (cardinal units) + 1).
Proof.
  intros Hunits.
  destruct (next_returns units start (S (cardinal units))) as [n Hn]; [lia|].
  destruct (next_return_smallest_free units start _ n Hn) as [_ Hbound].
  exists n. split; [lia|]. split.
  - intros fuel Hfuel.
    assert (Hnext : next fuel (ifilterfalse (contains units) (count start)) = Return n).
    { rewrite <- Hn. apply next_fuel_irrelevant; lia. }
    split.
    + unfold next_unit_int. now rewrite Hunits.
    + rewrite next_unit_int_lo_unfold. unfold next_unit_int. rewrite Hunits. simpl.
      now rewrite Hnext.
  - intros fuel c Hin. apply examined_bounded in Hin. lia.
Qed.

Lemma next_unit_int_terminates_witness :
  exists n,
    n <= 2001 + Z.of_nat (cardinal Examples.router_units) + 1 /\
    (forall fuel, (cardinal Examples.router_units < fuel)%nat ->
       next_unit_int fuel Examples.router "ge-0/2/5" 2001 = Return n /\
       next_unit_int_lo fuel Examples.router "ge-0/2/5" 2001 =
         (ip <- loopback_ip
                  (get_interface_information_terse (rpc Examples.router) "lo0.0") ;;
          Return (n, ip))) /\
    (forall fuel c,
       In c (examined fuel (ifilterfalse (contains Examples.router_units) (count 2001)) 0) ->
       2001 <= c <= 2001 + Z.of_nat (cardinal Examples.router_units) + 1).
Proof.
  apply (next_unit_int_terminates Examples.router "ge-0/2/5" 2001 Examples.router_units).
  vm_compute. reflexivity.
Defined.

(** ** VLAN extraction in terms of what it reads from each record *)

Lemma for_each_nested {A B S : Type} (xs : list A) (ys : list B)
    (body : B -> S -> outcome S) (s : S) :
  for_each xs (fun _ s => for_each ys body s) s =
  for_each (flat_map (fun _ => ys) xs) body s.
Proof.
  revert s. induction xs as [|x xs IH]; intros s; simpl; [reflexivity|].
  rewrite for_each_app. destruct (for_each ys body s); simpl; trivial.
Qed.

Lemma get_int_vlans_classic (dev : Device) (intf : string) :
  facts dev "ifd_style" = "CLASSIC" ->
  get_int_vlans dev intf =
  (all_vlans <- collect vlan_outcome (logical_interfaces dev intf) [] ;;
   Return (sorted all_vlans)).
Proof.
  intros Hstyle. unfold get_int_vlans, collect, logical_interfaces.
  rewrite Hstyle. simpl String.eqb. cbv iota.
  erewrite for_each_ext; [reflexivity|].
  intros item acc _. unfold vlan_outcome. now step_binds.
Qed.

Lemma get_int_vlans_switch (dev : Device) (intf : string) :
  facts dev "ifd_style" = "SWITCH" ->
  get_int_vlans dev intf =
  (all_vlans <- collect tagid_outcome (visited_members dev intf) [] ;;
   Return (sorted all_vlans)).
Proof.
  intros Hstyle. unfold get_int_vlans, collect, visited_members, vlan_members,
    vlan_member_lists.
  rewrite Hstyle. simpl String.eqb. cbv iota.
  rewrite for_each_nested.
  erewrite for_each_ext; [reflexivity|].
  intros item acc _. unfold tagid_outcome. now step_binds.
Qed.

Lemma get_int_vlans_unsupported (dev : Device) (intf : string) :
  facts dev "ifd_style" <> "CLASSIC" -> facts dev "ifd_style" <> "SWITCH" ->
  get_int_vlans dev intf = Raise (TypeError "Unsupported device type").
Proof.
  intros Hc Hs. unfold get_int_vlans.
  apply String.eqb_neq in Hc, Hs. now rewrite Hc, Hs.
Qed.

Lemma Forall2_values_map {A : Type} (value : A -> option Z) (items : list A) (zs : list Z) :
  Forall2 (fun item z => value item = Some z) items zs <->
  map value items = map Some zs.
Proof.
  split.
  - induction 1; simpl; congruence.
  - revert zs. induction items as [|x items IH]; intros [|z zs] H; simpl in H;
      try discriminate; constructor.
    + congruence.
    + apply IH. congruence.
Qed.

(** Records in another order carry the same values in that order. *)
Lemma Forall2_values_perm {A : Type} (value : A -> option Z) (items items' : list A)
    (zs : list Z) :
  Permutation items' items ->
  Forall2 (fun item z => value item = Some z) items zs ->
  exists zs', Permutation zs' zs /\
              Forall2 (fun item z => value item = Some z) items' zs'.
Proof.
  intros Hp HF. apply Forall2_values_map in HF.
  apply (Permutation_map value) in Hp. rewrite HF in Hp.
  apply Permutation_map_inv in Hp. destruct Hp as [zs' [Heq Hp']].
  exists zs'. split; [now apply Permutation_sym|].
  now apply Forall2_values_map.
Qed.

(** Every record has a value when a pass over the records finds one in
    each. *)
Lemma all_valued {A : Type} (value : A -> option Z) (items : list A) :
  forallb (fun item => match value item with Some _ => true | None => false end) items
  = true ->
  Forall (fun item => value item <> None) items.
Proof.
  induction items as [|item items IH]; simpl; intros H; [constructor|].
  apply andb_true_iff in H. destruct H as [Hitem Hrest].
  constructor; [|now apply IH].
  destruct (value item); [discriminate | discriminate].
Qed.

(** ** Unit extraction *)

(** C3: when every record's name field carries a unit number (the integer
    after the [.] delimiter), [get_int_units] returns those numbers sorted:
    an ascending list with exactly the parsed numbers as members; and the
    records given in any other order yield the same list. *)
Theorem get_int_units_sorted_any_order (dev : Device) (intf : string) (zs : list Z) :
  Forall2 (fun item z => unit_number item = Some z) (logical_interfaces dev intf) zs ->
  get_int_units dev intf = Return (sorted zs) /\
  Sorted Z.le (sorted zs) /\
  Permutation (sorted zs) zs /\
  (forall dev' intf',
     Permutation (logical_interfaces dev' intf') (logical_interfaces dev intf) ->
     get_int_units dev' intf' = Return (sorted zs)).
Proof.
  intros HF. split; [now apply get_int_units_values|].
  split; [apply sorted_Sorted|]. split; [apply sorted_perm|].
  intros dev' intf' Hp.
  destruct (Forall2_values_perm unit_number _ _ zs Hp HF) as [zs' [Hzs HF']].
  rewrite (get_int_units_values dev' intf' zs' HF').
  f_equal. now apply sorted_perm_invariant.
Qed.

Lemma get_int_units_sorted_any_order_witness :
  get_int_units Examples.router "ge-0/2/5" = Return [4; 2001; 2002] /\
  get_int_units Examples.router_shuffled "ge-0/2/5" = Return [4; 2001; 2002].
Proof.
  destruct (get_int_units_sorted_any_order Examples.router "ge-0/2/5" Examples.router_units)
    as [Hsame [_ [_ Hother]]].
  - apply Forall2_values_map. vm_compute. reflexivity.
  - split; [exact Hsame|].
    apply (Hother Examples.router_shuffled "ge-0/2/5").
    vm_compute. apply (Permutation_cons_append [_; _] _).
Defined.

(** A record whose field is unreadable has no value. *)
Lemma unreadable_unit_number (item : Element) :
  unreadable "name" unit_number item -> unit_number item = None.
Proof.
  unfold unreadable, unit_number.
  destruct (find item "name") as [e|]; [|reflexivity].
  destruct (text e) as [s|]; [|reflexivity].
  now intros [_ H].
Qed.

Lemma unreadable_vlan_number (item : Element) :
  unreadable "link-address" vlan_number item -> vlan_number item = None.
Proof.
  unfold unreadable, vlan_number.
  destruct (find item "link-address") as [e|]; [|reflexivity].
  destruct (text e) as [s|]; [|reflexivity].
  now intros [_ H].
Qed.

(** C4: in the unit path and in the CLASSIC VLAN path a record that lacks
    the expected field ([name], respectively [link-address]), whose field
    has no text, or whose field text, being plain, does not yield an
    integer, makes the whole call raise: the exception reaches the caller
    and no list is returned, so the record is not passed over. *)
Theorem malformed_record_is_hard_error (dev : Device) (intf : string) (item : Element) :
  In item (logical_interfaces dev intf) ->
  (unreadable "name" unit_number item ->
   exists e, get_int_units dev intf = Raise e) /\
  (facts dev "ifd_style" = "CLASSIC" ->
   unreadable "link-address" vlan_number item ->
   exists e, get_int_vlans dev intf = Raise e).
Proof.
  intros Hin. split.
  - intros Hbad. apply (get_int_units_malformed dev intf item Hin).
    now apply unreadable_unit_number.
  - intros Hstyle Hbad. rewrite (get_int_vlans_classic dev intf Hstyle).
    apply unreadable_vlan_number in Hbad.
    destruct (collect_malformed vlan_number vlan_outcome vlan_outcome_spec _ _ Hin Hbad)
      as [e He].
    rewrite He. now exists e.
Qed.

Lemma malformed_record_is_hard_error_witness :
  (exists e, get_int_units Examples.router_with_nameless "ge-0/2/5" = Raise e) /\
  (exists e, get_int_vlans Examples.router_with_nameless "ge-0/2/5" = Raise e).
Proof.
  destruct (malformed_record_is_hard_error Examples.router_with_nameless "ge-0/2/5"
              Examples.nameless) as [Hunits Hvlans].
  - vm_compute. right. left. reflexivity.
  - split.
    + apply Hunits. vm_compute. exact I.
    + apply Hvlans; [reflexivity | vm_compute; split; reflexivity].
Defined.

(** C10: the combined loopback variant is the standalone search followed by
    the reading of the loopback address: on every reply, start and fuel, it
    returns [(n, ip)] exactly when [next_unit_int] returns [n] and the
    loopback address read returns [ip], and otherwise ends the way the first
    of the two that does not return ends. *)
Theorem next_unit_int_lo_first_component (fuel : nat) (dev : Device) (intf : string)
    (start : Z) :
  next_unit_int_lo fuel dev intf start =
  (next_unit <- next_unit_int fuel dev intf start ;;
   loopbackip <- loopback_ip (get_interface_information_terse (rpc dev) "lo0.0") ;;
   Return (next_unit, loopbackip)).
Proof. apply next_unit_int_lo_unfold. Qed.

(** ** Route targets and route distinguishers *)

Lemma get_rts_collect (dev : Device) :
  get_rts dev =
  (instances <- routing_instances dev ;;
   targets <- collect_tolerant (colon_outcome "vrf-target/community" 2)
                (children instances) [] ;;
   Return (sorted targets)).
Proof.
  unfold get_rts, routing_instances, collect_tolerant.
  destruct (getitem (children (get_config (rpc dev))) (-2)) as [instances|e|];
    simpl; trivial.
  erewrite for_each_ext; [reflexivity|].
  intros item acc _. unfold colon_outcome. now step_binds.
Qed.

Lemma get_rds_collect (dev : Device) :
  get_rds dev =
  (instances <- routing_instances dev ;;
   distinguishers <- collect_tolerant (colon_outcome "route-distinguisher/rd-type" 1)
                       (children instances) [] ;;
   Return (sorted distinguishers)).
Proof.
  unfold get_rds, routing_instances, collect_tolerant.
  destruct (getitem (children (get_config (rpc dev))) (-2)) as [instances|e|];
    simpl; trivial.
  erewrite for_each_ext; [reflexivity|].
  intros item acc _. unfold colon_outcome. now step_binds.
Qed.

Lemma collect_tolerant_colon (path : string) (i : nat) (items : list Element) :
  collect_tolerant (colon_outcome path i) items [] =
  Return (present_values (colon_field path i) items).
Proof.
  apply (collect_tolerant_return (colon_outcome path i) (colon_field path i) items []).
  - apply (parse_has_fuel (colon_field path i)), colon_outcome_spec.
  - apply (parse_return_iff (colon_field path i)), colon_outcome_spec.
Qed.

Lemma get_rts_values (dev : Device) (instances : Element) :
  routing_instances dev = Return instances ->
  get_rts dev = Return (sorted (present_values rt_value (children instances))).
Proof.
  intros H. rewrite get_rts_collect, H. simpl.
  now rewrite collect_tolerant_colon.
Qed.

Lemma get_rds_values (dev : Device) (instances : Element) :
  routing_instances dev = Return instances ->
  get_rds dev = Return (sorted (present_values rd_value (children instances))).
Proof.
  intros H. rewrite get_rds_collect, H. simpl.
  now rewrite collect_tolerant_colon.
Qed.

Lemma in_present_values {A : Type} (value : A -> option Z) (items : list A) (z : Z) :
  In z (present_values value items) <-> exists item, In item items /\ value item = Some z.
Proof.
  unfold present_values. rewrite in_flat_map. split.
  - intros [item [Hin Hz]]. exists item. split; [exact Hin|].
    destruct (value item) as [z'|]; simpl in Hz; [|tauto].
    destruct Hz as [->|[]]. reflexivity.
  - intros [item [Hin Hz]]. exists item. split; [exact Hin|].
    rewrite Hz. now left.
Qed.

Lemma in_sorted (l : list Z) (z : Z) : In z (sorted l) <-> In z l.
Proof.
  split; apply Permutation_in; [|apply Permutation_sym]; apply sorted_perm.
Qed.

(** C5: over the routing instances of any configuration, [get_rts] and
    [get_rds] return the ascending list of the integers of the instances
    that carry one in their [vrf-target/community] (respectively
    [route-distinguisher/rd-type]) field: an instance without the field,
    without text in it, or with plain text that yields no integer,
    contributes nothing, and each of the others contributes its value,
    whatever the other instances look like. *)
Theorem bad_instance_is_skipped (dev : Device) (instances : Element) :
  routing_instances dev = Return instances ->
  (Forall (legible "vrf-target/community" rt_value) (children instances) ->
   get_rts dev = Return (sorted (present_values rt_value (children instances))) /\
   Sorted Z.le (sorted (present_values rt_value (children instances))) /\
   forall z, In z (sorted (present_values rt_value (children instances))) <->
             exists item, In item (children instances) /\ rt_value item = Some z) /\
  (Forall (legible "route-distinguisher/rd-type" rd_value) (children instances) ->
   get_rds dev = Return (sorted (present_values rd_value (children instances))) /\
   Sorted Z.le (sorted (present_values rd_value (children instances))) /\
   forall z, In z (sorted (present_values rd_value (children instances))) <->
             exists item, In item (children instances) /\ rd_value item = Some z).
Proof.
  intros H. split; intros _; (split; [|split]).
  - now apply get_rts_values.
  - apply sorted_Sorted.
  - intros z. rewrite in_sorted. apply in_present_values.
  - now apply get_rds_values.
  - apply sorted_Sorted.
  - intros z. rewrite in_sorted. apply in_present_values.
Qed.

Lemma bad_instance_is_skipped_witness :
  get_rts Examples.router = Return [5; 27] /\ get_rds Examples.router = Return [5; 27].
Proof.
  destruct (bad_instance_is_skipped Examples.router
              (mkElement "routing-instances" None
                 [Examples.instance "red"
                    [Examples.vrf_target "target:64512:27";
                     Examples.route_distinguisher "10.92.0.1:27"];
                  Examples.instance "bare" [];
                  Examples.instance "blue"
                    [Examples.vrf_target "target:64512:5";
                     Examples.route_distinguisher "10.92.0.1:5"]]))
    as [Hrts Hrds].
  - vm_compute. reflexivity.
  - destruct Hrts as [Hrts _]; [cbn [children]; all_legible|].
    destruct Hrds as [Hrds _]; [cbn [children]; all_legible|].
    split; [exact Hrts | exact Hrds].
Defined.

(** ** VLAN extraction and the device style *)

Lemma all_present_values {A : Type} (value : A -> option Z) (items : list A) :
  Forall (fun item => value item <> None) items ->
  Forall2 (fun item z => value item = Some z) items (present_values value items).
Proof.
  induction 1 as [|item items Hitem _ IH]; simpl; [constructor|].
  destruct (value item) as [z|] eqn:Hz; [|congruence].
  simpl. now constructor.
Qed.

Lemma visited_members_all (dev : Device) (intf : string) (P : Element -> Prop) :
  Forall P (vlan_members dev intf) -> Forall P (visited_members dev intf).
Proof.
  intros H. unfold visited_members.
  induction (vlan_member_lists dev intf) as [|x xs IH]; simpl; [constructor|].
  apply Forall_app. now split.
Qed.

Lemma get_int_vlans_classic_values (dev : Device) (intf : string) :
  facts dev "ifd_style" = "CLASSIC" ->
  Forall (fun item => vlan_number item <> None) (logical_interfaces dev intf) ->
  get_int_vlans dev intf =
  Return (sorted (present_values vlan_number (logical_interfaces dev intf))).
Proof.
  intros Hstyle Hwf. rewrite (get_int_vlans_classic dev intf Hstyle).
  rewrite (collect_values vlan_number vlan_outcome vlan_outcome_spec _ _
             (all_present_values _ _ Hwf)).
  reflexivity.
Qed.

Lemma get_int_vlans_switch_values (dev : Device) (intf : string) :
  facts dev "ifd_style" = "SWITCH" ->
  Forall (fun item => tagid_number item <> None) (vlan_members dev intf) ->
  get_int_vlans dev intf =
  Return (sorted (present_values tagid_number (visited_members dev intf))).
Proof.
  intros Hstyle Hwf. rewrite (get_int_vlans_switch dev intf Hstyle).
  rewrite (collect_values tagid_number tagid_outcome tagid_outcome_spec _ _
             (all_present_values _ _ (visited_members_all dev intf _ Hwf))).
  reflexivity.
Qed.

(** C6: when the records of the reply that the device style selects are
    well formed, [get_int_vlans] raises if and only if the style is neither
    CLASSIC nor SWITCH; the exception is then the [TypeError] of the final
    branch, and for each of the two known styles the call returns an
    ascending list of integers. *)
Theorem get_int_vlans_raises_iff_unsupported (dev : Device) (intf : string) :
  (facts dev "ifd_style" = "CLASSIC" ->
   Forall (fun item => vlan_number item <> None) (logical_interfaces dev intf)) ->
  (facts dev "ifd_style" = "SWITCH" ->
   Forall (fun item => tagid_number item <> None) (vlan_members dev intf)) ->
  ((exists e, get_int_vlans dev intf = Raise e) <->
   (facts dev "ifd_style" <> "CLASSIC" /\ facts dev "ifd_style" <> "SWITCH")) /\
  (facts dev "ifd_style" <> "CLASSIC" /\ facts dev "ifd_style" <> "SWITCH" ->
   get_int_vlans dev intf = Raise (TypeError "Unsupported device type")) /\
  (facts dev "ifd_style" = "CLASSIC" \/ facts dev "ifd_style" = "SWITCH" ->
   exists l, get_int_vlans dev intf = Return l /\ Sorted Z.le l).
Proof.
  intros Hclassic Hswitch.
  assert (Hknown : facts dev "ifd_style" = "CLASSIC" \/ facts dev "ifd_style" = "SWITCH" ->
                   exists l, get_int_vlans dev intf = Return l /\ Sorted Z.le l).
  { intros [Hstyle|Hstyle].
    - rewrite (get_int_vlans_classic_values dev intf Hstyle (Hclassic Hstyle)).
      eexists. split; [reflexivity | apply sorted_Sorted].
    - rewrite (get_int_vlans_switch_values dev intf Hstyle (Hswitch Hstyle)).
      eexists. split; [reflexivity | apply sorted_Sorted]. }
  split; [|split; [|exact Hknown]].
  - split.
    + intros [e He].
      destruct (string_dec (facts dev "ifd_style") "CLASSIC") as [Hc|Hc].
      { destruct (Hknown (or_introl Hc)) as [l [Hl _]]. congruence. }
      destruct (string_dec (facts dev "ifd_style") "SWITCH") as [Hs|Hs].
      { destruct (Hknown (or_intror Hs)) as [l [Hl _]]. congruence. }
      now split.
    + intros [Hc Hs]. eexists. now apply get_int_vlans_unsupported.
  - intros [Hc Hs]. now apply get_int_vlans_unsupported.
Qed.

Lemma get_int_vlans_raises_iff_unsupported_witness :
  get_int_vlans Examples.router "ge-0/2/5" = Return [4; 2001; 2002] /\
  get_int_vlans Examples.switch "ge-0/2/5" = Return [100; 200] /\
  get_int_vlans Examples.firewall "ge-0/2/5" = Raise (TypeError "Unsupported device type").
Proof.
  split; [|split].
  - destruct (get_int_vlans_raises_iff_unsupported Examples.router "ge-0/2/5")
      as [_ [_ Hknown]].
    + intros _. apply all_valued. vm_compute. reflexivity.
    + intros Hstyle. vm_compute in Hstyle. discriminate.
    + destruct Hknown as [l [Hl _]]; [left; reflexivity|].
      rewrite Hl. vm_compute in Hl. congruence.
  - destruct (get_int_vlans_raises_iff_unsupported Examples.switch "ge-0/2/5")
      as [_ [_ Hknown]].
    + intros Hstyle. vm_compute in Hstyle. discriminate.
    + intros _. apply all_valued. vm_compute. reflexivity.
    + destruct Hknown as [l [Hl _]]; [right; reflexivity|].
      rewrite Hl. vm_compute in Hl. congruence.
  - destruct (get_int_vlans_raises_iff_unsupported Examples.firewall "ge-0/2/5")
      as [_ [Hraise _]].
    + intros Hstyle. vm_compute in Hstyle. discriminate.
    + intros Hstyle. vm_compute in Hstyle. discriminate.
    + apply Hraise. split; discriminate.
Defined.

(** ** The identifiers an extraction returns *)

Lemma present_values_all {A : Type} (value : A -> option Z) (items : list A) (zs : list Z) :
  Forall2 (fun item z => value item = Some z) items zs ->
  present_values value items = zs.
Proof.
  induction 1 as [|item z items zs Hz _ IH]; simpl; [reflexivity|].
  rewrite Hz. simpl. now f_equal.
Qed.

Lemma collect_sorted_inv (value : Element -> option Z) (parse : Element -> outcome Z)
    (items : list Element) (l : list Z) :
  (forall item,
     match value item with
     | Some z => parse item = Return z
     | None => exists e, parse item = Raise e
     end) ->
  (all <- collect parse items [] ;; Return (sorted all)) = Return l ->
  l = sorted (present_values value items).
Proof.
  intros Hspec. destruct (collect parse items []) as [zs|e|] eqn:Hc; simpl; try discriminate.
  intros H. injection H as <-.
  apply (collect_values_inv value parse Hspec) in Hc.
  now rewrite (present_values_all value items zs Hc).
Qed.

Lemma extracted_sorted_ids (dev : Device) (intf : string) (ids l : list Z) :
  extracted dev intf ids l -> l = sorted ids.
Proof.
  intros [l' H|l' Hstyle H|l' Hstyle Hone H|instances l' Hinst _ H|instances l' Hinst _ H].
  - rewrite get_int_units_collect in H.
    now apply (collect_sorted_inv unit_number unit_outcome _ _ unit_outcome_spec).
  - rewrite (get_int_vlans_classic dev intf Hstyle) in H.
    now apply (collect_sorted_inv vlan_number vlan_outcome _ _ vlan_outcome_spec).
  - rewrite (get_int_vlans_switch dev intf Hstyle) in H.
    apply (collect_sorted_inv tagid_number tagid_outcome _ _ tagid_outcome_spec) in H.
    rewrite H. f_equal. unfold visited_members.
    destruct (vlan_member_lists dev intf) as [|x [|y xs]]; try discriminate.
    simpl. now rewrite app_nil_r.
  - rewrite (get_rts_values dev instances Hinst) in H. congruence.
  - rewrite (get_rds_values dev instances Hinst) in H. congruence.
Qed.

(** C9, as amended: an extraction returns the identifiers its records carry
    in ascending order, each as many times as records carry it; so the list
    returned consists of pairwise distinct integers exactly when the
    identifiers of the records are pairwise distinct, and of non-negative
    integers exactly when those are non-negative. *)
Theorem extraction_keeps_identifiers (dev : Device) (intf : string) (ids l : list Z) :
  extracted dev intf ids l ->
  Sorted Z.le l /\
  Permutation l ids /\
  (forall z, count_occ Z.eq_dec l z = count_occ Z.eq_dec ids z) /\
  (NoDup l <-> NoDup ids) /\
  (Forall (Z.le 0) l <-> Forall (Z.le 0) ids).
Proof.
  intros Hex. apply extracted_sorted_ids in Hex. subst l.
  pose proof (sorted_perm ids) as Hp.
  split; [apply sorted_Sorted|]. split; [exact Hp|]. split; [|split].
  - intros z. now apply (Permutation_count_occ Z.eq_dec).
  - split; apply Permutation_NoDup; [exact Hp | apply Permutation_sym; exact Hp].
  - split; apply Permutation_Forall; [exact Hp | apply Permutation_sym; exact Hp].
Qed.

Lemma extraction_keeps_identifiers_witness :
  Sorted Z.le [27; 27] /\
  Permutation [27; 27] [27; 27] /\
  (forall z, count_occ Z.eq_dec [27; 27] z = count_occ Z.eq_dec [27; 27] z) /\
  (NoDup [27; 27] <-> NoDup [27; 27]) /\
  (Forall (Z.le 0) [27; 27] <-> Forall (Z.le 0) [27; 27]).
Proof.
  apply (extraction_keeps_identifiers Examples.extranet "ge-0/2/5" [27; 27] [27; 27]).
  apply (extracted_rts Examples.extranet "ge-0/2/5"
           (mkElement "routing-instances" None
              [Examples.instance "red"
                 [Examples.vrf_target "target:64512:27";
                  Examples.route_distinguisher "10.92.0.1:27"];
               Examples.instance "red-mgmt"
                 [Examples.vrf_target "target:64512:27";
                  Examples.route_distinguisher "10.92.0.1:28"]])
           [27; 27]).
  - vm_compute. reflexivity.
  - cbn [children]. all_legible.
  - vm_compute. reflexivity.
Defined.

(** C9 as stated fails: two routing instances that share a route target
    make [get_rts] return that target twice. *)
Lemma shared_target_returned_twice :
  get_rts Examples.extranet = Return [27; 27] /\ ~ NoDup [27; 27].
Proof.
  split; [vm_compute; reflexivity|].
  intros H. inversion H as [|x l Hnotin _]. apply Hnotin. now left.
Qed.

(** With two member lists in the reply the SWITCH branch visits every
    member twice. *)
Lemma stacked_switch_vlans :
  get_int_vlans Examples.stacked_switch "ge-0/2/5" = Return [100; 100; 200; 200].
Proof. vm_compute. reflexivity. Qed.

(** ** The unit that carries a VLAN *)






(** C7 at the failing input: no unit of ge-0/2/5 carries VLAN 9999;
    [find_unit_for_vlan_lo] raises [UnboundLocalError], and
    [find_unit_for_vlan] returns the [None] of a function that ends without
    a [return]. *)
Theorem find_unit_for_vlan_lo_miss_raises :
  find_unit_for_vlan_lo Examples.router "ge-0/2/5" "9999" = Raise UnboundLocalError /\
  find_unit_for_vlan Examples.router "ge-0/2/5" "9999" = Return None.
Proof. split; vm_compute; reflexivity. Qed.

(** C8 at the failing input: units 2003 and 2004 both carry VLAN 2001;
    [find_unit_for_vlan] returns the unit of the first of them,
    [find_unit_for_vlan_lo] that of the last. *)
Theorem find_unit_for_vlan_lo_returns_last_match :
  find_unit_for_vlan Examples.qinq_router "ge-0/2/5" "2001" = Return (Some "2003") /\
  find_unit_for_vlan_lo Examples.qinq_router "ge-0/2/5" "2001"
  = Return ("2004", Some "10.1.1.1").
Proof. split; vm_compute; reflexivity. Qed.

(** * Further properties *)

(** ** Is a value in use? *)

Lemma collect_has_fuel {A : Type} (parse : A -> outcome Z) (items : list A) (acc : list Z) :
  (forall x, parse x <> OutOfFuel) -> collect parse items acc <> OutOfFuel.
Proof.
  intros Hfuel. revert acc. unfold collect.
  induction items as [|x items IH]; intros acc; simpl; [discriminate|].
  destruct (parse x) as [z|e|] eqn:Hx; simpl.
  - apply IH.
  - discriminate.
  - now apply Hfuel in Hx.
Qed.

Lemma get_int_units_has_fuel (dev : Device) (intf : string) :
  get_int_units dev intf <> OutOfFuel.
Proof.
  rewrite get_int_units_collect.
  pose proof (collect_has_fuel unit_outcome (logical_interfaces dev intf) []
                (parse_has_fuel unit_number unit_outcome unit_outcome_spec)) as H.
  destruct (collect unit_outcome (logical_interfaces dev intf) []); simpl;
    [discriminate | discriminate | contradiction].
Qed.

Lemma contains_sorted_present {A : Type} (value : A -> option Z) (items : list A) (n : Z) :
  contains (sorted (present_values value items)) n = true <->
  exists item, In item items /\ value item = Some n.
Proof. now rewrite contains_In, in_sorted, in_present_values. Qed.

(** [is_unit_int] answers whether some logical interface of the reply has
    the unit number written in [unit]. *)
Theorem is_unit_int_membership (dev : Device) (intf unit : string) (n : Z) :
  Forall (fun item => unit_number item <> None) (logical_interfaces dev intf) ->
  Str.parse_int unit = Some n ->
  exists b,
    is_unit_int dev intf unit = Return b /\
    (b = true <->
     exists item, In item (logical_interfaces dev intf) /\ unit_number item = Some n).
Proof.
  intros Hwf Hn. unfold is_unit_int.
  rewrite (get_int_units_values dev intf _ (all_present_values _ _ Hwf)). simpl.
  unfold int_of_str. rewrite Hn. simpl.
  eexists. split; [reflexivity | apply contains_sorted_present].
Qed.

Lemma is_unit_int_membership_witness :
  exists b,
    is_unit_int Examples.router "ge-0/2/5" " 2001" = Return b /\
    (b = true <->
     exists item, In item (logical_interfaces Examples.router "ge-0/2/5") /\
                  unit_number item = Some 2001).
Proof.
  apply (is_unit_int_membership Examples.router "ge-0/2/5" " 2001" 2001).
  - apply all_valued. vm_compute. reflexivity.
  - vm_compute. reflexivity.
Defined.

(** On a CLASSIC device [is_vlan_int] answers whether some logical interface
    of the reply carries the VLAN written in [vlan]. *)
Theorem is_vlan_int_membership (dev : Device) (intf vlan : string) (n : Z) :
  facts dev "ifd_style" = "CLASSIC" ->
  Forall (fun item => vlan_number item <> None) (logical_interfaces dev intf) ->
  Str.parse_int vlan = Some n ->
  exists b,
    is_vlan_int dev intf vlan = Return b /\
    (b = true <->
     exists item, In item (logical_interfaces dev intf) /\ vlan_number item = Some n).
Proof.
  intros Hstyle Hwf Hn. unfold is_vlan_int.
  rewrite (get_int_vlans_classic_values dev intf Hstyle Hwf). simpl.
  unfold int_of_str. rewrite Hn. simpl.
  eexists. split; [reflexivity | apply contains_sorted_present].
Qed.

Lemma is_vlan_int_membership_witness :
  exists b,
    is_vlan_int Examples.qinq_router "ge-0/2/5" "2001" = Return b /\
    (b = true <->
     exists item, In item (logical_interfaces Examples.qinq_router "ge-0/2/5") /\
                  vlan_number item = Some 2001).
Proof.
  apply (is_vlan_int_membership Examples.qinq_router "ge-0/2/5" "2001" 2001).
  - reflexivity.
  - apply all_valued. vm_compute. reflexivity.
  - vm_compute. reflexivity.
Defined.

(** [is_rt] and [is_rd] answer whether some routing instance carries the
    value written in [text]; instances without the field, without text in
    it, or with plain text that yields no integer, neither raise nor
    count. *)
Theorem is_rt_is_rd_membership (dev : Device) (instances : Element) (text : string)
    (n : Z) :
  routing_instances dev = Return instances ->
  Forall (legible "vrf-target/community" rt_value) (children instances) ->
  Forall (legible "route-distinguisher/rd-type" rd_value) (children instances) ->
  Str.parse_int text = Some n ->
  (exists b,
     is_rt dev text = Return b /\
     (b = true <->
      exists item, In item (children instances) /\ rt_value item = Some n)) /\
  (exists b,
     is_rd dev text = Return b /\
     (b = true <->
      exists item, In item (children instances) /\ rd_value item = Some n)).
Proof.
  intros Hinst _ _ Hn. unfold is_rt, is_rd.
  rewrite (get_rts_values dev instances Hinst), (get_rds_values dev instances Hinst).
  simpl. unfold int_of_str. rewrite Hn. simpl.
  split; (eexists; split; [reflexivity | apply contains_sorted_present]).
Qed.

Lemma is_rt_is_rd_membership_witness :
  (exists b,
     is_rt Examples.router "27" = Return b /\
     (b = true <->
      exists item, In item Examples.router_instances /\ rt_value item = Some 27)) /\
  (exists b,
     is_rd Examples.router "27" = Return b /\
     (b = true <->
      exists item, In item Examples.router_instances /\ rd_value item = Some 27)).
Proof.
  apply (is_rt_is_rd_membership Examples.router
           (mkElement "routing-instances" None
              [Examples.instance "red"
                 [Examples.vrf_target "target:64512:27";
                  Examples.route_distinguisher "10.92.0.1:27"];
               Examples.instance "bare" [];
               Examples.instance "blue"
                 [Examples.vrf_target "target:64512:5";
                  Examples.route_distinguisher "10.92.0.1:5"]]) "27" 27).
  - vm_compute. reflexivity.
  - cbn [children]. all_legible.
  - cbn [children]. all_legible.
  - vm_compute. reflexivity.
Defined.

(** ** The next free unit and the units in use *)

Lemma next_unit_int_inv (fuel : nat) (dev : Device) (intf : string) (start n : Z) :
  next_unit_int fuel dev intf start = Return n ->
  exists units,
    get_int_units dev intf = Return units /\
    next fuel (ifilterfalse (contains units) (count start)) = Return n.
Proof.
  unfold next_unit_int.
  destruct (get_int_units dev intf) as [units|e|]; simpl; try discriminate.
  intros H. now exists units.
Qed.

(** The unit [next_unit_int] proposes is one [is_unit_int] reports free, and
    every unit it passed over on the way is one [is_unit_int] reports in
    use. *)
Theorem next_unit_int_is_not_in_use (fuel : nat) (dev : Device) (intf : string)
    (start n : Z) :
  next_unit_int fuel dev intf start = Return n ->
  (forall unit, Str.parse_int unit = Some n ->
                is_unit_int dev intf unit = Return false) /\
  (forall unit m, Str.parse_int unit = Some m -> start <= m < n ->
                  is_unit_int dev intf unit = Return true).
Proof.
  intros H. apply next_unit_int_inv in H. destruct H as [units [Hunits Hnext]].
  apply next_return_smallest_free in Hnext.
  destruct Hnext as [[_ [Hfree Hbelow]] _].
  split.
  - intros unit Hn. unfold is_unit_int, int_of_str. rewrite Hunits. simpl.
    rewrite Hn. simpl. f_equal.
    destruct (contains units n) eqn:Hc; [|reflexivity].
    apply contains_In in Hc. contradiction.
  - intros unit m Hm Hrange. unfold is_unit_int, int_of_str. rewrite Hunits. simpl.
    rewrite Hm. simpl. f_equal. apply contains_In. now apply Hbelow.
Qed.

Lemma next_unit_int_is_not_in_use_witness :
  (forall unit, Str.parse_int unit = Some 2003 ->
                is_unit_int Examples.router "ge-0/2/5" unit = Return false) /\
  (forall unit m, Str.parse_int unit = Some m -> 2001 <= m < 2003 ->
                  is_unit_int Examples.router "ge-0/2/5" unit = Return true).
Proof.
  apply (next_unit_int_is_not_in_use 5 Examples.router "ge-0/2/5" 2001 2003).
  vm_compute. reflexivity.
Defined.

(** Asking again from any point between the start and the answer gives the
    same answer; in particular the answer is its own next free unit. *)
Theorem next_unit_int_restart (fuel : nat) (dev : Device) (intf : string)
    (start start' n : Z) :
  next_unit_int fuel dev intf start = Return n ->
  start <= start' <= n ->
  next_unit_int fuel dev intf start' = Return n.
Proof.
  intros H Hrange. apply next_unit_int_inv in H. destruct H as [units [Hunits Hnext]].
  unfold next_unit_int. rewrite Hunits. simpl.
  apply next_from_return in Hnext. destruct Hnext as [j [Hj [Hn [Hp Hs]]]].
  simpl in Hn, Hp. unfold count in Hn.
  set (j' := Z.to_nat (n - start')).
  replace n with (source (ifilterfalse (contains units) (count start')) (0 + j')%nat).
  2:{ simpl. unfold count, j'. lia. }
  apply next_from_enough.
  - intros i Hi. simpl. unfold count.
    specialize (Hs (Z.to_nat (start' - start) + i)%nat). simpl in Hs. unfold count in Hs.
    replace (start' + Z.of_nat i)
      with (start + Z.of_nat (Z.to_nat (start' - start) + i)) by lia.
    apply Hs. unfold j' in Hi. lia.
  - simpl. unfold count, j'. replace (start' + Z.of_nat (Z.to_nat (n - start'))) with n by lia.
    exact Hp.
  - unfold j'. lia.
Qed.

Lemma next_unit_int_restart_witness :
  next_unit_int 5 Examples.router "ge-0/2/5" 2002 = Return 2003 /\
  next_unit_int 5 Examples.router "ge-0/2/5" 2003 = Return 2003.
Proof.
  split.
  - apply (next_unit_int_restart 5 Examples.router "ge-0/2/5" 2001 2002 2003);
      [vm_compute; reflexivity | lia].
  - apply (next_unit_int_restart 5 Examples.router "ge-0/2/5" 2001 2003 2003);
      [vm_compute; reflexivity | lia].
Defined.

(** A later start never gives an earlier answer. *)
Theorem next_unit_int_monotone (fuel fuel' : nat) (dev : Device) (intf : string)
    (start start' n n' : Z) :
  next_unit_int fuel dev intf start = Return n ->
  next_unit_int fuel' dev intf start' = Return n' ->
  start <= start' ->
  n <= n'.
Proof.
  intros H H' Hle.
  apply next_unit_int_inv in H. destruct H as [units [Hunits Hnext]].
  apply next_unit_int_inv in H'. destruct H' as [units' [Hunits' Hnext']].
  assert (units' = units) by congruence. subst units'.
  apply next_return_smallest_free in Hnext, Hnext'.
  destruct Hnext as [[_ [_ Hbelow]] _]. destruct Hnext' as [[Hge' [Hfree' _]] _].
  destruct (Z_le_gt_dec n n') as [|Hgt]; [assumption|].
  exfalso. apply Hfree', Hbelow. lia.
Qed.

Lemma next_unit_int_monotone_witness : 5 <= 2003.
Proof.
  apply (next_unit_int_monotone 5 5 Examples.router "ge-0/2/5" 4 2001 5 2003).
  - vm_compute. reflexivity.
  - vm_compute. reflexivity.
  - lia.
Defined.

(** With fuel for one candidate more than the reply has logical interfaces,
    [next_unit_int] always ends: it returns a unit at most that many above
    the start, or raises what the extraction raises. *)
Theorem next_unit_int_ends (fuel : nat) (dev : Device) (intf : string) (start : Z) :
  (List.length (logical_interfaces dev intf) < fuel)%nat ->
  (exists n,
     next_unit_int fuel dev intf start = Return n /\
     start <= n <= start + Z.of_nat (List.length (logical_interfaces dev intf))) \/
  (exists e,
     get_int_units dev intf = Raise e /\ next_unit_int fuel dev intf start = Raise e).
Proof.
  intros Hfuel. unfold next_unit_int.
  destruct (get_int_units dev intf) as [units|e|] eqn:Hunits; simpl.
  - left. apply get_int_units_inv in Hunits. destruct Hunits as [zs [-> HF]].
    apply Forall2_length in HF.
    assert (Hcard : (cardinal (sorted zs) <= List.length (logical_interfaces dev intf))%nat).
    { etransitivity; [apply cardinal_le_length|].
      rewrite (Permutation_length (sorted_perm zs)). lia. }
    destruct (next_returns (sorted zs) start fuel) as [n Hn]; [lia|].
    exists n. split; [exact Hn|].
    apply next_return_smallest_free in Hn. destruct Hn as [[Hge _] Hbound]. lia.
  - right. now exists e.
  - now apply get_int_units_has_fuel in Hunits.
Qed.

Lemma next_unit_int_ends_witness :
  (exists n,
     next_unit_int 4 Examples.router "ge-0/2/5" 2001 = Return n /\
     2001 <= n <= 2001 + Z.of_nat (List.length (logical_interfaces Examples.router "ge-0/2/5")))
  \/
  (exists e,
     get_int_units Examples.router "ge-0/2/5" = Raise e /\
     next_unit_int 4 Examples.router "ge-0/2/5" 2001 = Raise e).
Proof.
  apply (next_unit_int_ends 4 Examples.router "ge-0/2/5" 2001).
  vm_compute. lia.
Defined.

(** ** The configuration lookup of the RT and RD extraction *)

Lemma getitem_minus_two_short {A : Type} (l : list A) :
  (List.length l < 2)%nat -> getitem l (-2) = Raise IndexError.
Proof.
  intros H. unfold getitem. cbv zeta. change (-2 <? 0) with true. cbv iota.
  assert (Hneg : (Z.of_nat (List.length l) + -2 <? 0) = true) by (apply Z.ltb_lt; lia).
  now rewrite Hneg.
Qed.

Lemma getitem_minus_two_long {A : Type} (l : list A) :
  (2 <= List.length l)%nat -> exists a, getitem l (-2) = Return a.
Proof.
  intros H. unfold getitem. cbv zeta. change (-2 <? 0) with true. cbv iota.
  assert (Hpos : (Z.of_nat (List.length l) + -2 <? 0) = false) by (apply Z.ltb_ge; lia).
  assert (Hin : (Z.of_nat (List.length l) <=? Z.of_nat (List.length l) + -2) = false)
    by (apply Z.leb_gt; lia).
  rewrite Hpos, Hin. simpl orb. cbv iota.
  destruct (nth_error l (Z.to_nat (Z.of_nat (List.length l) + -2))) as [a|] eqn:Hnth.
  - now exists a.
  - apply nth_error_None in Hnth. lia.
Qed.

(** The tolerance of [get_rts] and [get_rds] covers the instances only: a
    configuration reply with fewer than two children makes both raise
    [IndexError] at [config[-2]]. *)
Theorem get_rts_short_configuration (dev : Device) :
  (List.length (children (get_config (rpc dev))) < 2)%nat ->
  get_rts dev = Raise IndexError /\ get_rds dev = Raise IndexError.
Proof.
  intros H. unfold get_rts, get_rds.
  now rewrite (getitem_minus_two_short _ H).
Qed.

Lemma get_rts_short_configuration_witness :
  get_rts Examples.unconfigured = Raise IndexError /\
  get_rds Examples.unconfigured = Raise IndexError.
Proof.
  apply (get_rts_short_configuration Examples.unconfigured).
  vm_compute. lia.
Defined.

(** Nothing else makes them raise: an exception of [get_rts] or [get_rds]
    is that [IndexError], and the reply then has fewer than two children. *)
Theorem get_rts_raises_only_index_error (dev : Device) (e : exn) :
  get_rts dev = Raise e \/ get_rds dev = Raise e ->
  e = IndexError /\ (List.length (children (get_config (rpc dev))) < 2)%nat.
Proof.
  intros H.
  destruct (le_lt_dec 2 (List.length (children (get_config (rpc dev))))) as [Hlong|Hshort].
  - exfalso. destruct (getitem_minus_two_long _ Hlong) as [instances Hinst].
    fold (routing_instances dev) in Hinst.
    rewrite (get_rts_values dev instances Hinst),
            (get_rds_values dev instances Hinst) in H.
    destruct H; discriminate.
  - unfold get_rts, get_rds in H.
    rewrite (getitem_minus_two_short _ Hshort) in H. simpl in H.
    split; [|exact Hshort].
    destruct H; congruence.
Qed.

Lemma get_rts_raises_only_index_error_witness :
  IndexError = IndexError /\
  (List.length (children (get_config (rpc Examples.unconfigured))) < 2)%nat.
Proof.
  apply (get_rts_raises_only_index_error Examples.unconfigured IndexError).
  left. vm_compute. reflexivity.
Defined.

(** ** The SWITCH branch of the VLAN extraction *)

(** Members are read only while a member list is visited: a reply without
    any [interface-vlan-member-list] element gives the empty list, whatever
    members it holds. *)
Theorem get_int_vlans_switch_without_member_list (dev : Device) (intf : string) :
  facts dev "ifd_style" = "SWITCH" ->
  vlan_member_lists dev intf = [] ->
  get_int_vlans dev intf = Return [].
Proof.
  intros Hstyle Hlists. rewrite (get_int_vlans_switch dev intf Hstyle).
  unfold visited_members. now rewrite Hlists.
Qed.

Lemma get_int_vlans_switch_without_member_list_witness :
  get_int_vlans Examples.flat_switch "ge-0/0/1" = Return [].
Proof.
  apply (get_int_vlans_switch_without_member_list Examples.flat_switch "ge-0/0/1");
    vm_compute; reflexivity.
Defined.

Lemma Forall2_visited {A B C : Type} (R : A -> B -> Prop) (xs : list A) (ys : list B)
    (lists : list C) :
  Forall2 R xs ys ->
  Forall2 R (flat_map (fun _ => xs) lists) (List.concat (repeat ys (List.length lists))).
Proof.
  intros H. induction lists as [|c lists IH]; simpl; [constructor|].
  now apply Forall2_app.
Qed.

(** Every member list of the reply makes the SWITCH branch read all members
    of the reply: with [k] member lists the result holds the tag of every
    member [k] times. *)
Theorem get_int_vlans_switch_repeats (dev : Device) (intf : string) (tags : list Z) :
  facts dev "ifd_style" = "SWITCH" ->
  Forall2 (fun item z => tagid_number item = Some z) (vlan_members dev intf) tags ->
  get_int_vlans dev intf =
  Return (sorted (List.concat (repeat tags (List.length (vlan_member_lists dev intf))))).
Proof.
  intros Hstyle Htags. rewrite (get_int_vlans_switch dev intf Hstyle).
  unfold visited_members.
  rewrite (collect_values tagid_number tagid_outcome tagid_outcome_spec _ _
             (Forall2_visited _ _ _ (vlan_member_lists dev intf) Htags)).
  reflexivity.
Qed.

Lemma get_int_vlans_switch_repeats_witness :
  get_int_vlans Examples.stacked_switch "ge-0/0/1" = Return [100; 100; 200; 200].
Proof.
  apply (get_int_vlans_switch_repeats Examples.stacked_switch "ge-0/0/1" [100; 200]).
  - reflexivity.
  - apply Forall2_values_map. vm_compute. reflexivity.
Defined.

(** ** Unit extraction: size of the result and kind of error *)

(** A list returned by [get_int_units] has one entry per logical interface
    of the reply, in ascending order. *)
Theorem get_int_units_one_per_record (dev : Device) (intf : string) (l : list Z) :
  get_int_units dev intf = Return l ->
  List.length l = List.length (logical_interfaces dev intf) /\ Sorted Z.le l.
Proof.
  intros H. apply get_int_units_inv in H. destruct H as [zs [-> HF]].
  split; [|apply sorted_Sorted].
  rewrite (Permutation_length (sorted_perm zs)).
  symmetry. now apply Forall2_length in HF.
Qed.

Lemma get_int_units_one_per_record_witness :
  List.length [4; 2001; 2002] = List.length (logical_interfaces Examples.router "ge-0/2/5")
  /\ Sorted Z.le [4; 2001; 2002].
Proof.
  apply (get_int_units_one_per_record Examples.router "ge-0/2/5" [4; 2001; 2002]).
  vm_compute. reflexivity.
Defined.

Lemma split_without_sep (sep : ascii) (s : string) :
  Str.occurs sep s = false -> Str.split sep s = [s].
Proof.
  induction s as [|c s IH]; simpl; intros H; [reflexivity|].
  apply orb_false_iff in H. destruct H as [Hc Hs].
  now rewrite Hc, (IH Hs).
Qed.

Lemma collect_first_raise {A : Type} (parse : A -> outcome Z) (before after : list A)
    (item : A) (e : exn) (acc : list Z) :
  Forall (fun x => exists z, parse x = Return z) before ->
  parse item = Raise e ->
  collect parse (before ++ item :: after) acc = Raise e.
Proof.
  intros Hbefore He. revert acc. unfold collect.
  induction Hbefore as [|x before [z Hz] _ IH]; intros acc; simpl.
  - now rewrite He.
  - rewrite Hz. simpl. apply IH.
Qed.

(** The first malformed record decides the exception of [get_int_units]:
    [AttributeError] when it has no [name] field or the field has no text,
    [IndexError] when the name has no [.], [ValueError] when the name is
    plain text and what follows the [.] is not an integer.  Records after
    it are not read. *)
Theorem get_int_units_first_malformed (dev : Device) (intf : string)
    (before after : list Element) (item : Element) :
  logical_interfaces dev intf = before ++ item :: after ->
  Forall (fun x => unit_number x <> None) before ->
  (find item "name" = None -> get_int_units dev intf = Raise AttributeError) /\
  (forall e, find item "name" = Some e -> text e = None ->
             get_int_units dev intf = Raise AttributeError) /\
  (forall e s, find item "name" = Some e -> text e = Some s ->
               Str.occurs "." s = false ->
               get_int_units dev intf = Raise IndexError) /\
  (forall e s u, find item "name" = Some e -> text e = Some s ->
                 Str.plain s = true ->
                 nth_error (Str.split "." s) 1 = Some u ->
                 Str.parse_int (Str.strip u) = None ->
                 get_int_units dev intf = Raise ValueError).
Proof.
  intros Hrecs Hbefore.
  assert (Hraise : forall e, unit_outcome item = Raise e ->
                             get_int_units dev intf = Raise e).
  { intros e He. rewrite get_int_units_collect, Hrecs.
    rewrite (collect_first_raise unit_outcome before after item e []); trivial.
    eapply Forall_impl; [|exact Hbefore]. intros x Hx. cbv beta in Hx.
    pose proof (unit_outcome_spec x) as Hspec.
    destruct (unit_number x) as [z|]; [now exists z | congruence]. }
  repeat split.
  - intros Hfind. apply Hraise. unfold unit_outcome. now rewrite Hfind.
  - intros e Hfind Htext. apply Hraise. unfold unit_outcome.
    now rewrite Hfind; simpl; rewrite Htext.
  - intros e s Hfind Htext Hdot. apply Hraise. unfold unit_outcome.
    rewrite Hfind; simpl; rewrite Htext; simpl.
    now rewrite (split_without_sep "." s Hdot).
  - intros e s u Hfind Htext _ Hnth Hparse. apply Hraise. unfold unit_outcome.
    rewrite Hfind; simpl; rewrite Htext; cbn [split bind].
    change 1 with (Z.of_nat 1). rewrite getitem_nat, Hnth. cbn [bind].
    unfold int_of_str. now rewrite Hparse.
Qed.

Lemma get_int_units_first_malformed_witness :
  get_int_units Examples.router_with_nameless "ge-0/2/5" = Raise AttributeError.
Proof.
  destruct (get_int_units_first_malformed Examples.router_with_nameless "ge-0/2/5"
              [Examples.logical_interface "ge-0/2/5.4" "VLAN-Tag [ 0x8100.4 ] "] []
              Examples.nameless) as [Hmissing _].
  - vm_compute. reflexivity.
  - apply all_valued. vm_compute. reflexivity.
  - apply Hmissing. reflexivity.
Defined.

(** ** The unit that carries a VLAN, continued *)








(** ** The loopback address *)

(** Induction over an element and, through the list of children, over all
    its descendants. *)
Fixpoint Element_nested_ind (P : Element -> Prop)
    (step : forall t x cs, Forall P cs -> P (mkElement t x cs)) (e : Element) : P e :=
  match e with
  | mkElement t x cs =>
      step t x cs
        ((fix all (l : list Element) : Forall P l :=
            match l with
            | [] => Forall_nil P
            | c :: l' => Forall_cons c (Element_nested_ind P step c) (all l')
            end) cs)
  end.

Lemma iter_all_self (e : Element) : In e (iter_all e).
Proof. destruct e. now left. Qed.

(** Without an [inet] address family anywhere in the reply the XPath query
    selects nothing. *)
Lemma xpath_ifa_local_without_inet (e : Element) :
  Forall (fun x => is_inet_family x = false) (iter_all e) ->
  xpath_ifa_local_from false false e = [].
Proof.
  induction e as [t x cs IH] using Element_nested_ind. simpl. intros Hall.
  apply Forall_inv_tail in Hall.
  induction IH as [|c cs Hc _ IHcs]; simpl; [reflexivity|].
  simpl in Hall. apply Forall_app in Hall. destruct Hall as [Hhere Hrest].
  assert (Hfam : is_inet_family c = false).
  { rewrite Forall_forall in Hhere. apply Hhere, iter_all_self. }
  rewrite Hfam, (Hc Hhere). simpl. now apply IHcs.
Qed.

(** On a device whose loopback reply has no [inet] address family both
    loopback variants raise [IndexError], also where the plain search
    returns a unit; the lookup variant raises it before reading any
    record. *)
Theorem loopback_variants_need_inet (fuel : nat) (dev : Device) (intf vlan : string)
    (start : Z) (units : list Z) :
  Forall (fun x => is_inet_family x = false)
         (iter_all (get_interface_information_terse (rpc dev) "lo0.0")) ->
  get_int_units dev intf = Return units ->
  (cardinal units < fuel)%nat ->
  find_unit_for_vlan_lo dev intf vlan = Raise IndexError /\
  next_unit_int_lo fuel dev intf start = Raise IndexError /\
  exists n, next_unit_int fuel dev intf start = Return n.
Proof.
  intros Hlo Hunits Hfuel.
  assert (Hip : loopback_ip (get_interface_information_terse (rpc dev) "lo0.0")
                = Raise IndexError).
  { unfold loopback_ip, xpath_ifa_local.
    now rewrite (xpath_ifa_local_without_inet _ Hlo). }
  destruct (next_returns units start fuel Hfuel) as [n Hn].
  assert (Hnext : next_unit_int fuel dev intf start = Return n).
  { unfold next_unit_int. now rewrite Hunits. }
  repeat split.
  - unfold find_unit_for_vlan_lo. now rewrite Hip.
  - rewrite next_unit_int_lo_unfold, Hnext. simpl. now rewrite Hip.
  - now exists n.
Qed.

Lemma loopback_variants_need_inet_witness :
  find_unit_for_vlan_lo (Examples.with_loopback Examples.router Examples.loopback_inet6)
    "ge-0/2/5" "2001" = Raise IndexError /\
  next_unit_int_lo 4 (Examples.with_loopback Examples.router Examples.loopback_inet6)
    "ge-0/2/5" 2001 = Raise IndexError /\
  exists n,
    next_unit_int 4 (Examples.with_loopback Examples.router Examples.loopback_inet6)
      "ge-0/2/5" 2001 = Return n.
Proof.
  apply (loopback_variants_need_inet 4
           (Examples.with_loopback Examples.router Examples.loopback_inet6)
           "ge-0/2/5" "2001" 2001 Examples.router_units).
  - vm_compute. repeat constructor.
  - vm_compute. reflexivity.
  - vm_compute. lia.
Defined.

(** ** The VLAN read from a link address *)





(** ** The unit read from a name *)

Lemma unit_number_after_first_dot_witness :
  unit_number (Examples.logical_interface "ge-0/2/5.12.3" "VLAN-Tag [ 0x8100.12 ] ")
  = Str.parse_int (Str.strip (hd EmptyString (Str.split "." "12.3"))).
Proof.
  apply (unit_number_after_first_dot
           (Examples.logical_interface "ge-0/2/5.12.3" "VLAN-Tag [ 0x8100.12 ] ")
           (Examples.leaf "name" "ge-0/2/5.12.3") "ge-0/2/5" "12.3");
    vm_compute; reflexivity.
Defined.
